(** * Verification of the 2bshrd core: frame codec, transfer service and
    device discovery (src/shrd/protocol.py, transfer.py, discovery.py).

    Python values are embedded as follows: [int] as [Z]; [str] as a list of
    code points ([list Z]); [bytes] as a list of [Z] in [0, 255]; [float]
    arithmetic on the quantities used here as exact rationals [Q]; dicts as
    association lists in insertion order. *)

From Stdlib Require Import ZArith QArith Qminmax Lqa Lia List String Ascii Bool.
Import ListNotations.
Open Scope Z_scope.

(* ================================================================== *)
(** ** Part I - definitions *)
(* ================================================================== *)

(** *** Python strings *)

Definition str := list Z.

(** A Python literal written with ASCII characters. *)
Definition s (x : string) : str :=
  map (fun a => Z.of_nat (nat_of_ascii a)) (list_ascii_of_string x).

(** *** Backoff delays (transfer.py _connect_with_retry,
        discovery.py _reconnect_with_backoff) *)

Open Scope Q_scope.

Definition RETRY_BASE_DELAY : Q := 1 # 2.
Definition RETRY_MAX_DELAY : Q := 5.
Definition RECONNECT_BASE_DELAY : Q := 1.
Definition RECONNECT_MAX_DELAY : Q := 30.

(** [2 ** (attempt - 1)] for an integer attempt number. *)
Definition pow2 (e : Z) : Q := inject_Z (2 ^ e).

(** [random.uniform(a, b)] returns a value in [a, b] (the upper end point
    may be reached through rounding). *)
Definition uniform_range (a b j : Q) : Prop := a <= j /\ j <= b.

(** [min(RETRY_BASE_DELAY * (2 ** (attempt - 1)) + random.uniform(0, 0.5),
        RETRY_MAX_DELAY)] *)
Definition connect_retry_delay (attempt : Z) (jitter : Q) : Q :=
  Qmin (RETRY_BASE_DELAY * pow2 (attempt - 1) + jitter) RETRY_MAX_DELAY.

(** [min(RECONNECT_BASE_DELAY * (2 ** (attempt - 1)) + random.uniform(0, 1),
        RECONNECT_MAX_DELAY)] *)
Definition reconnect_delay (attempt : Z) (jitter : Q) : Q :=
  Qmin (RECONNECT_BASE_DELAY * pow2 (attempt - 1) + jitter) RECONNECT_MAX_DELAY.

(** *** TransferProgress.percent (transfer.py) *)




Close Scope Q_scope.

(** *** Decimal rendering of integers ([str(n)], [f"{n}"]) *)

(** Digits of [n >= 0], most significant first, as ASCII codes. *)
Fixpoint dec_digits_fuel (fuel : nat) (n : Z) : str :=
  match fuel with
  | O => []
  | S f => if n <? 10 then [48 + n] else dec_digits_fuel f (n / 10) ++ [48 + n mod 10]
  end.

Definition dec_digits (n : Z) : str := dec_digits_fuel (S (Z.to_nat (Z.log2 n))) n.

(** The value of a string of decimal digits (the inverse of [dec_digits]). *)
Definition dec_val (x : str) : Z := fold_left (fun acc c => acc * 10 + (c - 48)) x 0.

(** [str(n)] for a Python [int]. *)
Definition py_str_int (n : Z) : str :=
  if n <? 0 then 45 :: dec_digits (- n) else dec_digits n.

(** *** UTF-8 ([str.encode("utf-8")]); lone surrogates raise, modelled by [None] *)

Definition utf8_encode_cp (c : Z) : option (list Z) :=
  if c <? 0 then None
  else if c <? 0x80 then Some [c]
  else if c <? 0x800 then Some [0xC0 + c / 64; 0x80 + c mod 64]
  else if (0xD800 <=? c) && (c <=? 0xDFFF) then None
  else if c <? 0x10000 then Some [0xE0 + c / 4096; 0x80 + (c / 64) mod 64; 0x80 + c mod 64]
  else if c <=? 0x10FFFF then
    Some [0xF0 + c / 262144; 0x80 + (c / 4096) mod 64; 0x80 + (c / 64) mod 64; 0x80 + c mod 64]
  else None.

Fixpoint utf8_encode (x : str) : option (list Z) :=
  match x with
  | [] => Some []
  | c :: r =>
      match utf8_encode_cp c, utf8_encode r with
      | Some b, Some br => Some (b ++ br)
      | _, _ => None
      end
  end.

(** *** SHA-256 (hashlib.sha256, FIPS 180-4) over bytes *)

Module SHA256.

Definition mask32 : Z := 0xffffffff.
Definition add32 (a b : Z) : Z := Z.land (a + b) mask32.
Definition rotr (x n : Z) : Z := Z.land (Z.lor (Z.shiftr x n) (Z.shiftl x (32 - n))) mask32.
Definition ch (x y z : Z) : Z := Z.lxor (Z.land x y) (Z.land (Z.lxor x mask32) z).
Definition maj (x y z : Z) : Z := Z.lxor (Z.lxor (Z.land x y) (Z.land x z)) (Z.land y z).
Definition bsig0 (x : Z) : Z := Z.lxor (Z.lxor (rotr x 2) (rotr x 13)) (rotr x 22).
Definition bsig1 (x : Z) : Z := Z.lxor (Z.lxor (rotr x 6) (rotr x 11)) (rotr x 25).
Definition ssig0 (x : Z) : Z := Z.lxor (Z.lxor (rotr x 7) (rotr x 18)) (Z.shiftr x 3).
Definition ssig1 (x : Z) : Z := Z.lxor (Z.lxor (rotr x 17) (rotr x 19)) (Z.shiftr x 10).

(** The round constants (FIPS 180-4, 4.2.2), written in decimal. *)
Definition K : list Z := [
  1116352408; 1899447441; 3049323471; 3921009573; 961987163; 1508970993;
  2453635748; 2870763221; 3624381080; 310598401; 607225278; 1426881987;
  1925078388; 2162078206; 2614888103; 3248222580; 3835390401; 4022224774;
  264347078; 604807628; 770255983; 1249150122; 1555081692; 1996064986;
  2554220882; 2821834349; 2952996808; 3210313671; 3336571891; 3584528711;
  113926993; 338241895; 666307205; 773529912; 1294757372; 1396182291;
  1695183700; 1986661051; 2177026350; 2456956037; 2730485921; 2820302411;
  3259730800; 3345764771; 3516065817; 3600352804; 4094571909; 275423344;
  430227734; 506948616; 659060556; 883997877; 958139571; 1322822218;
  1537002063; 1747873779; 1955562222; 2024104815; 2227730452; 2361852424;
  2428436474; 2756734187; 3204031479; 3329325298].

Record state := mkState { ha : Z; hb : Z; hc : Z; hd : Z; he : Z; hf : Z; hg : Z; hh : Z }.

Definition H0 : state :=
  mkState 1779033703 3144134277 1013904242 2773480762
          1359893119 2600822924 528734635 1541459225.

(** Big-endian 32-bit words of a 64-byte block. *)
Fixpoint be_words (b : list Z) : list Z :=
  match b with
  | b0 :: b1 :: b2 :: b3 :: r =>
      (b0 * 16777216 + b1 * 65536 + b2 * 256 + b3) :: be_words r
  | _ => []
  end.

(** The message schedule W[0..63], built from W[0..15]. *)
Fixpoint schedule (fuel : nat) (w : list Z) : list Z :=
  match fuel with
  | O => w
  | S f =>
      let t := List.length w in
      let wt := add32 (add32 (ssig1 (nth (t - 2) w 0)) (nth (t - 7) w 0))
                      (add32 (ssig0 (nth (t - 15) w 0)) (nth (t - 16) w 0)) in
      schedule f (w ++ [wt])
  end.

Definition round (st : state) (kw : Z * Z) : state :=
  let '(k, w) := kw in
  let t1 := add32 (add32 (add32 (hh st) (bsig1 (he st))) (add32 (ch (he st) (hf st) (hg st)) k)) w in
  let t2 := add32 (bsig0 (ha st)) (maj (ha st) (hb st) (hc st)) in
  mkState (add32 t1 t2) (ha st) (hb st) (hc st) (add32 (hd st) t1) (he st) (hf st) (hg st).

Definition compress (st : state) (block : list Z) : state :=
  let w := schedule 48 (be_words block) in
  let st' := fold_left round (combine K w) st in
  mkState (add32 (ha st) (ha st')) (add32 (hb st) (hb st')) (add32 (hc st) (hc st'))
          (add32 (hd st) (hd st')) (add32 (he st) (he st')) (add32 (hf st) (hf st'))
          (add32 (hg st) (hg st')) (add32 (hh st) (hh st')).

Definition be_bytes (n : nat) (x : Z) : list Z :=
  map (fun i => Z.land (Z.shiftr x (8 * (Z.of_nat n - 1 - Z.of_nat i))) 255) (seq 0 n).

(** Padding: 0x80, zeros up to 56 mod 64, then the bit length on 64 bits. *)
Definition pad (m : list Z) : list Z :=
  let l := Z.of_nat (List.length m) in
  m ++ [128] ++ repeat 0 (Z.to_nat ((55 - l) mod 64)) ++ be_bytes 8 (8 * l).

Fixpoint blocks (fuel : nat) (m : list Z) : list (list Z) :=
  match fuel with
  | O => []
  | S f => match m with [] => [] | _ => firstn 64 m :: blocks f (skipn 64 m) end
  end.

Definition digest (m : list Z) : list Z :=
  let p := pad m in
  let st := fold_left compress (blocks (List.length p) p) H0 in
  flat_map (be_bytes 4) [ha st; hb st; hc st; hd st; he st; hf st; hg st; hh st].

End SHA256.

(** [hexdigest()]: two lowercase hex digits per byte. *)
Definition hex_lower (d : Z) : Z := if d <? 10 then 48 + d else 87 + d.
Definition hex_upper (d : Z) : Z := if d <? 10 then 48 + d else 55 + d.
Definition hex2 (b : Z) : str := [hex_lower (b / 16); hex_lower (b mod 16)].
Definition hexdigest (d : list Z) : str := flat_map hex2 d.

(** [str.upper()] on the ASCII range. *)
Definition upper_char (c : Z) : Z := if (97 <=? c) && (c <=? 122) then c - 32 else c.
Definition py_upper (x : str) : str := map upper_char x.

(** *** Pairing code (discovery.py DeviceDiscovery.pairing_code) *)

Definition pairing_seed (device_id ip : str) (port : Z) : str :=
  device_id ++ s ":" ++ ip ++ s ":" ++ py_str_int port.

Definition pairing_code (device_id ip : str) (port : Z) : option str :=
  match utf8_encode (pairing_seed device_id ip port) with
  | None => None
  | Some bytes =>
      let h := py_upper (firstn 8 (hexdigest (SHA256.digest bytes))) in
      Some (firstn 4 h ++ s "-" ++ skipn 4 h)
  end.

(** The pairing code as the spec words it: the first eight hex characters
    of the digest, in upper case, as two groups of four joined by "-". *)
Definition hex2_upper (b : Z) : str := [hex_upper (b / 16); hex_upper (b mod 16)].

Definition pairing_code_from_digest (d : list Z) : str :=
  match d with
  | b0 :: b1 :: b2 :: b3 :: _ =>
      hex2_upper b0 ++ hex2_upper b1 ++ s "-" ++ hex2_upper b2 ++ hex2_upper b3
  | _ => []
  end.

(** *** Shared helpers: string equality, dicts and sets *)

Definition str_eqb (a b : str) : bool :=
  if list_eq_dec Z.eq_dec a b then true else false.

(** A Python [set] of strings, as a duplicate-free list. *)
Definition set_mem (x : str) (l : list str) : bool := existsb (str_eqb x) l.
Definition set_add (x : str) (l : list str) : list str :=
  if set_mem x l then l else l ++ [x].
Definition set_discard (x : str) (l : list str) : list str :=
  filter (fun y => negb (str_eqb x y)) l.

(** A Python [dict] with string keys, in insertion order. *)
Definition dict (V : Type) := list (str * V).

Fixpoint dict_get {V} (d : dict V) (k : str) : option V :=
  match d with
  | [] => None
  | (k', v) :: d' => if str_eqb k k' then Some v else dict_get d' k
  end.

(** [d[k] = v]: replaces the value in place, or appends a new entry. *)
Fixpoint dict_set {V} (d : dict V) (k : str) (v : V) : dict V :=
  match d with
  | [] => [(k, v)]
  | (k', v') :: d' => if str_eqb k k' then (k', v) :: d' else (k', v') :: dict_set d' k v
  end.

Definition dict_get_default {V} (d : dict V) (k : str) (def : V) : V :=
  match dict_get d k with Some v => v | None => def end.

(** *** Devices and the persistence store (config.py) *)

Record Device := mkDevice {
  dev_id : str;
  dev_name : str;
  dev_host : str;
  dev_port : Z;
  dev_last_seen : option str;
  dev_is_online : bool
}.

Definition set_online (d : Device) (b : bool) : Device :=
  mkDevice (dev_id d) (dev_name d) (dev_host d) (dev_port d) (dev_last_seen d) b.
Definition set_last_seen (d : Device) (t : str) : Device :=
  mkDevice (dev_id d) (dev_name d) (dev_host d) (dev_port d) (Some t) (dev_is_online d).
Definition set_host (d : Device) (h : str) : Device :=
  mkDevice (dev_id d) (dev_name d) h (dev_port d) (dev_last_seen d) (dev_is_online d).

(** *** Device discovery and liveness state (discovery.py DeviceDiscovery) *)

Inductive DiscEvent :=
| StatusEv (id : str) (online : bool)     (* on_device_status(id, online) *)
| NewDeviceEv (d : Device)                 (* on_new_device(device) *)
| DeviceFoundEv (d : Device)               (* legacy on_device_found(device) *)
| ReconnectTask (id : str).                (* _reconnect_with_backoff enqueued *)

Record Disc := mkDisc {
  cfg_devices : dict Device;          (* ConfigManager.devices *)
  devices_file : list Device;         (* devices.json as last written *)
  own_id : str;                       (* config.config.device_id *)
  seen_ids : list str;                (* _seen_ids *)
  consecutive_failures : dict Z;      (* _consecutive_failures *)
  reconnect_attempts : dict Z;        (* _reconnect_attempts *)
  pending_reconnects : list str;      (* _pending_reconnects *)
  loop_set : bool;                    (* _loop is not None *)
  hook_status : bool;                 (* on_device_status is set *)
  hook_new_device : bool;             (* on_new_device is set *)
  hook_device_found : bool;           (* on_device_found is set *)
  disc_events : list DiscEvent
}.

Definition with_devices (st : Disc) (ds : dict Device) (file : list Device) : Disc :=
  mkDisc ds file (own_id st) (seen_ids st) (consecutive_failures st)
    (reconnect_attempts st) (pending_reconnects st) (loop_set st) (hook_status st)
    (hook_new_device st) (hook_device_found st) (disc_events st).
Definition with_seen (st : Disc) (seen : list str) : Disc :=
  mkDisc (cfg_devices st) (devices_file st) (own_id st) seen (consecutive_failures st)
    (reconnect_attempts st) (pending_reconnects st) (loop_set st) (hook_status st)
    (hook_new_device st) (hook_device_found st) (disc_events st).
Definition with_counters (st : Disc) (fails attempts : dict Z) (pending : list str) : Disc :=
  mkDisc (cfg_devices st) (devices_file st) (own_id st) (seen_ids st) fails attempts
    pending (loop_set st) (hook_status st)
    (hook_new_device st) (hook_device_found st) (disc_events st).
Definition emit (st : Disc) (e : DiscEvent) : Disc :=
  mkDisc (cfg_devices st) (devices_file st) (own_id st) (seen_ids st)
    (consecutive_failures st) (reconnect_attempts st) (pending_reconnects st)
    (loop_set st) (hook_status st) (hook_new_device st) (hook_device_found st)
    (disc_events st ++ [e]).

(** [ConfigManager.update_device] / [add_device]: write the dict entry and
    rewrite devices.json with every device. *)
Definition update_device (d : Device) (st : Disc) : Disc :=
  let ds := dict_set (cfg_devices st) (dev_id d) d in
  with_devices st ds (map snd ds).

(** [ConfigManager.remove_device]. *)
Definition remove_device (id : str) (st : Disc) : Disc :=
  match dict_get (cfg_devices st) id with
  | Some _ =>
      let ds := filter (fun kv => negb (str_eqb id (fst kv))) (cfg_devices st) in
      with_devices st ds (map snd ds)
  | None => st
  end.

(** [if self.on_device_status: self.on_device_status(id, online)] *)
Definition emit_status (id : str) (b : bool) (st : Disc) : Disc :=
  if hook_status st then emit st (StatusEv id b) else st.

(** [_schedule_reconnect] *)
Definition schedule_reconnect (id : str) (st : Disc) : Disc :=
  if negb (loop_set st) || set_mem id (pending_reconnects st) then st
  else emit (with_counters st (consecutive_failures st) (reconnect_attempts st)
               (set_add id (pending_reconnects st)))
            (ReconnectTask id).

(** [_check_device_with_retry] after its probes: [online] is the result of
    the (up to [PING_RETRIES]) pings of this round, [now] the timestamp. *)
Definition check_device_with_retry (online : bool) (now : str) (id : str) (st : Disc) : Disc :=
  match dict_get (cfg_devices st) id with
  | None => st
  | Some device =>
      let was_online := dev_is_online device in
      if online then
        let st1 := with_counters st (dict_set (consecutive_failures st) id 0)
                     (dict_set (reconnect_attempts st) id 0)
                     (set_discard id (pending_reconnects st)) in
        if negb was_online then
          emit_status id true (update_device (set_last_seen (set_online device true) now) st1)
        else st1
      else
        let n := dict_get_default (consecutive_failures st) id 0 + 1 in
        let st1 := with_counters st (dict_set (consecutive_failures st) id n)
                     (reconnect_attempts st) (pending_reconnects st) in
        if (2 <=? n) && was_online then
          let st2 := emit_status id false (update_device (set_online device false) st1) in
          if negb (set_mem id (pending_reconnects st2)) then schedule_reconnect id st2 else st2
        else st1
  end.

(** *** mDNS callbacks and start-up (discovery.py add_service, start) *)

(** What [zc.get_service_info(type_, name)] reports about a service. *)
Record SvcInfo := mkSvcInfo {
  si_has_properties : bool;     (* [info.properties] is non-empty *)
  si_device_id : str;           (* properties.get(b"device_id", b"").decode() *)
  si_device_name : str;         (* properties.get(b"device_name", b"").decode() *)
  si_addresses : list str;      (* info.parsed_addresses() *)
  si_port : Z
}.

(** [add_service]; [info = None] when no service info was found. *)
Definition add_service (info : option SvcInfo) (now : str) (st : Disc) : Disc :=
  match info with
  | None => st
  | Some i =>
    if negb (si_has_properties i) then st else
    let device_id := si_device_id i in
    if str_eqb device_id (own_id st) then st else
    match si_addresses i with
    | [] => st
    | addr :: _ =>
      let device := mkDevice device_id (si_device_name i) addr (si_port i) (Some now) true in
      match dict_get (cfg_devices st) device_id with
      | Some existing =>
          if negb (str_eqb (dev_host existing) addr) || negb (dev_is_online existing) then
            let existing' := set_last_seen (set_online (set_host existing addr) true) now in
            emit_status device_id true (update_device existing' st)
          else st
      | None =>
          if set_mem device_id (seen_ids st) then st
          else
            let st1 := with_seen st (set_add device_id (seen_ids st)) in
            if hook_new_device st1 then emit st1 (NewDeviceEv device)
            else if hook_device_found st1 then emit st1 (DeviceFoundEv device)
            else st1
      end
    end
  end.

(** [update_service] delegates to [add_service]. *)
Definition update_service (info : option SvcInfo) (now : str) (st : Disc) : Disc :=
  add_service info now st.

(** [start]: [self._seen_ids = {d.id for d in self.config.list_devices()}].
    In [start] this assignment runs after the [ServiceBrowser] has been
    created, whose thread may already deliver callbacks. *)
Definition seed_seen_ids (st : Disc) : Disc :=
  with_seen st (map dev_id (map snd (cfg_devices st))).

(** The operations that reach the discovery state during a process run. *)
Inductive DiscOp :=
| OpAddService (info : option SvcInfo) (now : str)
| OpUpdateService (info : option SvcInfo) (now : str)
| OpSeedSeen                                    (* the seeding line of [start] *)
| OpProbe (online : bool) (now : str) (id : str) (* one liveness probe round *)
| OpEnroll (d : Device)                          (* ConfigManager.add_device *)
| OpRemove (id : str).                           (* ConfigManager.remove_device *)

Definition disc_step (st : Disc) (op : DiscOp) : Disc :=
  match op with
  | OpAddService i now => add_service i now st
  | OpUpdateService i now => update_service i now st
  | OpSeedSeen => seed_seen_ids st
  | OpProbe b now id => check_device_with_retry b now id st
  | OpEnroll d => update_device d st
  | OpRemove id => remove_device id st
  end.

Definition run_disc (st : Disc) (ops : list DiscOp) : Disc := fold_left disc_step ops st.

(** The state right after [__init__]: [_seen_ids = set()], no event yet. *)
Definition disc_init (persisted : dict Device) (own : str) (loop hs hn hf : bool) : Disc :=
  mkDisc persisted (map snd persisted) own [] [] [] [] loop hs hn hf [].

(** Number of [on_new_device] notifications for identifier [id]. *)
Definition is_new_for (id : str) (e : DiscEvent) : bool :=
  match e with NewDeviceEv d => str_eqb (dev_id d) id | _ => false end.
Definition count_new (id : str) (evs : list DiscEvent) : nat :=
  List.length (filter (is_new_for id) evs).

(** A peer [dev-x], not enrolled, advertising itself over mDNS. *)
Definition svc_x : SvcInfo :=
  mkSvcInfo true (s "dev-x") (s "phone") [s "192.168.1.30"] 52637.

(** *** Outbound connection with retry (transfer.py _connect_with_retry) *)

Definition MAX_RETRIES : Z := 3.

(** How one attempt of the loop body ends. *)
Inductive AttemptOutcome :=
| AttemptRaised   (* open_connection, the HELLO write or the reply read raised
                     (timeouts included): the [except] branch *)
| AttemptAck      (* the reply is HELLO_ACK: [return reader, writer] *)
| AttemptNoAck.   (* the reply is missing or not HELLO_ACK and the writer is
                     closed without error *)

Inductive ConnEvent :=
| RetryEv (name : str) (attempt max : Z)   (* on_connection_retry(name, attempt, max) *)
| SleepEv (delay : Q)                      (* await asyncio.sleep(delay) *)
| CloseEv.                                 (* writer.close(); await writer.wait_closed() *)

(** [range(1, n + 1)] *)
Definition range_from1 (n : Z) : list Z := map Z.of_nat (seq 1 (Z.to_nat n)).

(** The [for attempt in range(1, max_retries + 1)] loop; the result is the
    attempt whose session is returned, [None] for [return None]. *)
Fixpoint connect_loop (name : str) (hook : bool) (max_retries : Z)
    (outcome : Z -> AttemptOutcome) (jitter : Z -> Q)
    (attempts : list Z) (evs : list ConnEvent) : option Z * list ConnEvent :=
  match attempts with
  | [] => (None, evs)
  | attempt :: rest =>
      match outcome attempt with
      | AttemptAck => (Some attempt, evs)
      | AttemptNoAck =>
          connect_loop name hook max_retries outcome jitter rest (evs ++ [CloseEv])
      | AttemptRaised =>
          let evs' :=
            if attempt <? max_retries then
              evs ++ (if hook then [RetryEv name attempt max_retries] else [])
                  ++ [SleepEv (connect_retry_delay attempt (jitter attempt))]
            else evs in
          connect_loop name hook max_retries outcome jitter rest evs'
      end
  end.

Definition connect_with_retry (name : str) (hook : bool) (max_retries : Z)
    (outcome : Z -> AttemptOutcome) (jitter : Z -> Q) : option Z * list ConnEvent :=
  connect_loop name hook max_retries outcome jitter (range_from1 max_retries) [].

(** Every attempt connects but the peer never acknowledges the HELLO. *)
Definition all_no_ack (k : Z) : AttemptOutcome := AttemptNoAck.

(** A peer [dev-b] that is online with no recorded failure, on a node
    [dev-a] started with an event loop and a status hook. *)
Definition device_example : Device :=
  mkDevice (s "dev-b") (s "laptop") (s "192.168.1.20") 52637 None true.

Definition disc_example : Disc :=
  mkDisc [(s "dev-b", device_example)] [device_example] (s "dev-a") [s "dev-b"]
    [] [] [] true true true false [].

(** *** Paths (pathlib.PurePosixPath) and the file system *)

(** A path as pathlib holds it: an anchor flag and the list of parts.
    (The POSIX special case of exactly two leading slashes is not
    distinguished from one.) *)
Record path := mkPath { p_abs : bool; p_parts : list str }.

Definition path_eq_dec (p q : path) : {p = q} + {p <> q}.
Proof. decide equality; [apply (list_eq_dec (list_eq_dec Z.eq_dec)) | apply bool_dec]. Defined.

Definition path_eqb (p q : path) : bool := if path_eq_dec p q then true else false.

(** [x.split(c)] *)
Fixpoint split_on (c : Z) (x : str) : list str :=
  match x with
  | [] => [[]]
  | y :: ys =>
      if y =? c then [] :: split_on c ys
      else match split_on c ys with
           | [] => [[y]]
           | z :: zs => (y :: z) :: zs
           end
  end.

(** [Path(x)]: split on ['/'], dropping empty and ["."] parts. *)
Definition path_of_str (x : str) : path :=
  mkPath (match x with c :: _ => c =? 47 | [] => false end)
         (filter (fun p => negb (str_eqb p []) && negb (str_eqb p (s ".")))
                 (split_on 47 x)).

(** [d / x]: an absolute right operand replaces the left one. *)
Definition path_div (d : path) (x : str) : path :=
  let q := path_of_str x in
  if p_abs q then q else mkPath (p_abs d) (p_parts d ++ p_parts q).

(** [str(p)] *)
Definition join_slash (ps : list str) : str :=
  match ps with
  | [] => []
  | p :: r => p ++ flat_map (fun q => 47 :: q) r
  end.

Definition path_str (p : path) : str :=
  if p_abs p then 47 :: join_slash (p_parts p)
  else match p_parts p with [] => s "." | _ => join_slash (p_parts p) end.

(** [p.name], [p.stem], [p.suffix] (with [i = name.rfind('.')], a suffix
    exists when [0 < i < len(name) - 1]). *)
Definition path_name (p : path) : str := last (p_parts p) [].

Fixpoint rfind_from (c : Z) (i : Z) (x : str) (acc : Z) : Z :=
  match x with
  | [] => acc
  | y :: ys => rfind_from c (i + 1) ys (if y =? c then i else acc)
  end.

Definition rfind (c : Z) (x : str) : Z := rfind_from c 0 x (-1).

Definition has_suffix (name : str) : bool :=
  let i := rfind 46 name in (0 <? i) && (i <? Z.of_nat (List.length name) - 1).

Definition path_suffix (p : path) : str :=
  let name := path_name p in
  if has_suffix name then skipn (Z.to_nat (rfind 46 name)) name else [].

Definition path_stem (p : path) : str :=
  let name := path_name p in
  if has_suffix name then firstn (Z.to_nat (rfind 46 name)) name else name.

(** The operating system resolves [..] parts (symbolic links are not
    modelled). *)
Definition norm_step (abs : bool) (acc : list str) (c : str) : list str :=
  if str_eqb c (s "..") then
    match acc with
    | d :: r => if str_eqb d (s "..") then c :: acc else r
    | [] => if abs then [] else [c]
    end
  else c :: acc.

Definition resolve (p : path) : path :=
  mkPath (p_abs p) (rev (fold_left (norm_step (p_abs p)) (p_parts p) [])).

(** The file system: resolved paths with their contents. *)
Definition files := list (path * list Z).

(** [p.exists()] *)
Definition path_exists (fs : files) (p : path) : bool :=
  existsb (fun e => path_eqb (resolve p) (fst e)) fs.

(** [open(p, "wb").write(data)] and [p.unlink()] *)
Definition write_file (fs : files) (p : path) (data : list Z) : files :=
  (resolve p, data) :: filter (fun e => negb (path_eqb (resolve p) (fst e))) fs.

Definition unlink (fs : files) (p : path) : files :=
  filter (fun e => negb (path_eqb (resolve p) (fst e))) fs.

(** *** Destination of an accepted offer (transfer.py _handle_file_offer)

    [while dest_path.exists(): ... dest_path = dest_dir / f"{stem}_{counter}{suffix}"].
    The loop is run with fuel; [choose_dest] gives it two more rounds than
    there are files, which [choose_dest_total] shows is always enough. *)
Fixpoint dedup_loop (fuel : nat) (fs : files) (dest_dir : path) (name : str)
    (counter : Z) (dest_path : path) : option path :=
  match fuel with
  | O => None
  | S f =>
      if path_exists fs dest_path then
        let stem := path_stem (path_of_str name) in
        let suffix := path_suffix (path_of_str name) in
        dedup_loop f fs dest_dir name (counter + 1)
          (path_div dest_dir (stem ++ s "_" ++ py_str_int counter ++ suffix))
      else Some dest_path
  end.

Definition choose_dest (fs : files) (downloads_dir name : str) : option path :=
  let dest_dir := path_of_str downloads_dir in
  dedup_loop (List.length fs + 2) fs dest_dir name 1 (path_div dest_dir name).

(** The [k]-th renamed candidate. *)
Definition candidate (dest_dir : path) (name : str) (k : Z) : path :=
  path_div dest_dir (path_stem (path_of_str name) ++ s "_" ++ py_str_int k
                     ++ path_suffix (path_of_str name)).

(** *** Completion of an inbound offer (transfer.py _handle_file_offer,
        download_from_device) *)

(** Messages written back to the peer. *)
Inductive OutMsg :=
| MsgFileError (error : str)
| MsgFileComplete (path : str).

Record Recv := mkRecv {
  r_fs : files;
  r_sent : list OutMsg;
  r_completed : list (str * bool)
}.

(** [if file_info.checksum and checksum != file_info.checksum] with the
    offered checksum [None] or a string. *)
Definition checksum_mismatch (offered : option str) (computed : str) : bool :=
  match offered with
  | None => false
  | Some c => negb (str_eqb c []) && negb (str_eqb computed c)
  end.

(** From [dest_dir = Path(...)] to the end of the handler: choose the
    destination, receive [data] into it, verify. [receive_file] returns the
    SHA-256 hex digest of the bytes it wrote. *)
Definition receive_offer (hook_complete : bool) (downloads_dir name : str)
    (offered : option str) (data : list Z) (st : Recv) : option Recv :=
  match choose_dest (r_fs st) downloads_dir name with
  | None => None
  | Some dest =>
      let fs1 := write_file (r_fs st) dest data in
      let checksum := hexdigest (SHA256.digest data) in
      if checksum_mismatch offered checksum then
        Some (mkRecv (unlink fs1 dest)
                     (r_sent st ++ [MsgFileError (s "Checksum mismatch")])
                     (r_completed st))
      else
        Some (mkRecv fs1 (r_sent st ++ [MsgFileComplete (path_str dest)])
                     (if hook_complete then r_completed st ++ [(path_str dest, true)]
                      else r_completed st))
  end.

(** [download_from_device] after [FILE_DOWNLOAD_START]: no renaming. *)
Definition download_finish (downloads_dir name : str) (offered : option str)
    (data : list Z) (fs : files) : option path * files :=
  let dest := path_div (path_of_str downloads_dir) name in
  let fs1 := write_file fs dest data in
  let checksum := hexdigest (SHA256.digest data) in
  if checksum_mismatch offered checksum then (None, unlink fs1 dest)
  else (Some dest, fs1).

(** *** UTF-8 decoding ([bytes.decode("utf-8")], strict) *)

Definition utf8_cont (b : Z) : bool := (0x80 <=? b) && (b <=? 0xBF).

Fixpoint utf8_decode (b : list Z) : option str :=
  match b with
  | [] => Some []
  | b0 :: r =>
      if b0 <? 0x80 then option_map (cons b0) (utf8_decode r)
      else if (0xC2 <=? b0) && (b0 <=? 0xDF) then
        match r with
        | b1 :: r1 =>
            if utf8_cont b1 then option_map (cons ((b0 - 0xC0) * 64 + (b1 - 0x80))) (utf8_decode r1)
            else None
        | [] => None
        end
      else if (0xE0 <=? b0) && (b0 <=? 0xEF) then
        match r with
        | b1 :: b2 :: r2 =>
            let cp := (b0 - 0xE0) * 4096 + (b1 - 0x80) * 64 + (b2 - 0x80) in
            if utf8_cont b1 && utf8_cont b2 && (0x800 <=? cp)
               && negb ((0xD800 <=? cp) && (cp <=? 0xDFFF))
            then option_map (cons cp) (utf8_decode r2) else None
        | _ => None
        end
      else if (0xF0 <=? b0) && (b0 <=? 0xF4) then
        match r with
        | b1 :: b2 :: b3 :: r3 =>
            let cp := (b0 - 0xF0) * 262144 + (b1 - 0x80) * 4096 + (b2 - 0x80) * 64 + (b3 - 0x80) in
            if utf8_cont b1 && utf8_cont b2 && utf8_cont b3
               && (0x10000 <=? cp) && (cp <=? 0x10FFFF)
            then option_map (cons cp) (utf8_decode r3) else None
        | _ => None
        end
      else None
  end.

(** *** JSON values (the json module, without floats) *)

#[warnings="-register-all"]
Inductive json :=
| JNull
| JBool (b : bool)
| JInt (n : Z)
| JStr (x : str)
| JArr (l : list json)
| JObj (kv : list (str * json)).

(** Induction through the lists of arrays and objects. *)
Section json_ind_nested.
Variable P : json -> Prop.
Hypothesis HNull : P JNull.
Hypothesis HBool : forall b, P (JBool b).
Hypothesis HInt : forall n, P (JInt n).
Hypothesis HStr : forall x, P (JStr x).
Hypothesis HArr : forall l, Forall P l -> P (JArr l).
Hypothesis HObj : forall kv, Forall (fun e => P (snd e)) kv -> P (JObj kv).

Fixpoint json_ind_nested (v : json) : P v :=
  match v with
  | JNull => HNull
  | JBool b => HBool b
  | JInt n => HInt n
  | JStr x => HStr x
  | JArr l =>
      HArr l ((fix go (l : list json) : Forall P l :=
                 match l with
                 | [] => Forall_nil _
                 | w :: r => Forall_cons _ (json_ind_nested w) (go r)
                 end) l)
  | JObj kv =>
      HObj kv ((fix go (kv : list (str * json)) : Forall (fun e => P (snd e)) kv :=
                  match kv with
                  | [] => Forall_nil _
                  | e :: r => Forall_cons _ (json_ind_nested (snd e)) (go r)
                  end) kv)
  end.
End json_ind_nested.

(** *** json.dumps (default separators [", "] and [": "], ensure_ascii) *)

(** ['\\u{0:04x}'.format(n)] *)
Definition u_escape (n : Z) : str :=
  [92; 117; hex_lower (Z.land (Z.shiftr n 12) 15); hex_lower (Z.land (Z.shiftr n 8) 15);
   hex_lower (Z.land (Z.shiftr n 4) 15); hex_lower (Z.land n 15)].

(** One character of [py_encode_basestring_ascii]: [ESCAPE_DCT] for the
    quote, the backslash, [\b \f \n \r \t] and the other control
    characters; every character outside [' ' .. '~'] as [\uXXXX], above
    the BMP as a surrogate pair. *)
Definition escape_char (c : Z) : str :=
  if c =? 34 then [92; 34]
  else if c =? 92 then [92; 92]
  else if c =? 8 then [92; 98]
  else if c =? 12 then [92; 102]
  else if c =? 10 then [92; 110]
  else if c =? 13 then [92; 114]
  else if c =? 9 then [92; 116]
  else if (c <? 32) || (126 <? c) then
    if c <? 0x10000 then u_escape c
    else
      let n := c - 0x10000 in
      let s1 := Z.lor 0xd800 (Z.land (Z.shiftr n 10) 0x3ff) in
      let s2 := Z.lor 0xdc00 (Z.land n 0x3ff) in
      u_escape s1 ++ u_escape s2
  else [c].

Definition encode_str (x : str) : str := 34 :: flat_map escape_char x ++ [34].

Fixpoint join_sep (sep : str) (l : list str) : str :=
  match l with
  | [] => []
  | [x] => x
  | x :: r => x ++ sep ++ join_sep sep r
  end.

(** [int.__repr__] for integers (an [IntEnum] member is written the same
    way); the digit limit of [int] to [str] conversion is not modelled. *)
Fixpoint dumps (v : json) : str :=
  match v with
  | JNull => s "null"
  | JBool true => s "true"
  | JBool false => s "false"
  | JInt n => py_str_int n
  | JStr x => encode_str x
  | JArr l => 91 :: join_sep (s ", ") (map dumps l) ++ [93]
  | JObj kv =>
      123 :: join_sep (s ", ") (map (fun e => encode_str (fst e) ++ s ": " ++ dumps (snd e)) kv)
        ++ [125]
  end.

(** *** json.loads (the C scanner, strict mode) *)

Definition is_ws (c : Z) : bool := (c =? 32) || (c =? 9) || (c =? 10) || (c =? 13).

Fixpoint skip_ws (x : str) : str :=
  match x with
  | c :: r => if is_ws c then skip_ws r else x
  | [] => []
  end.

Definition hex_val (c : Z) : option Z :=
  if (48 <=? c) && (c <=? 57) then Some (c - 48)
  else if (97 <=? c) && (c <=? 102) then Some (c - 87)
  else if (65 <=? c) && (c <=? 70) then Some (c - 55)
  else None.

Definition hex4_val (a b c d : Z) : option Z :=
  match hex_val a, hex_val b, hex_val c, hex_val d with
  | Some x, Some y, Some z, Some w => Some (((x * 16 + y) * 16 + z) * 16 + w)
  | _, _, _, _ => None
  end.

(** The character of a one-letter escape: a backslash followed by a quote,
    a backslash, a slash or one of [b f n r t]. *)
Definition simple_escape (e : Z) : option Z :=
  if e =? 34 then Some 34
  else if e =? 92 then Some 92
  else if e =? 47 then Some 47
  else if e =? 98 then Some 8
  else if e =? 102 then Some 12
  else if e =? 110 then Some 10
  else if e =? 114 then Some 13
  else if e =? 116 then Some 9
  else None.

Definition cons_char (c : Z) (o : option (str * str)) : option (str * str) :=
  match o with Some (v, r) => Some (c :: v, r) | None => None end.

(** [scanstring] after the opening quote: the decoded content and the input
    after the closing quote. A high surrogate escape followed by an escaped
    low surrogate is joined into one character. *)
Fixpoint scan_str (x : str) : option (str * str) :=
  match x with
  | [] => None
  | c :: r =>
      if c =? 34 then Some ([], r)
      else if c =? 92 then
        match r with
        | [] => None
        | e :: r1 =>
            if e =? 117 then
              match r1 with
              | a :: b :: c' :: d :: r2 =>
                  match hex4_val a b c' d with
                  | None => None
                  | Some u =>
                      if (0xd800 <=? u) && (u <=? 0xdbff) then
                        match r2 with
                        | q1 :: q2 :: a2 :: b2 :: c2 :: d2 :: r3 =>
                            if (q1 =? 92) && (q2 =? 117) then
                              match hex4_val a2 b2 c2 d2 with
                              | None => None
                              | Some u2 =>
                                  if (0xdc00 <=? u2) && (u2 <=? 0xdfff) then
                                    cons_char (0x10000 + Z.lor (Z.shiftl (u - 0xd800) 10) (u2 - 0xdc00))
                                      (scan_str r3)
                                  else cons_char u (scan_str r2)
                              end
                            else cons_char u (scan_str r2)
                        | _ => cons_char u (scan_str r2)
                        end
                      else cons_char u (scan_str r2)
                  end
              | _ => None
              end
            else
              match simple_escape e with
              | Some ch => cons_char ch (scan_str r1)
              | None => None
              end
        end
      else if c <? 32 then None
      else cons_char c (scan_str r)
  end.

Definition is_digit (c : Z) : bool := (48 <=? c) && (c <=? 57).

Fixpoint span_digits (x : str) : str * str :=
  match x with
  | c :: r => if is_digit c then let '(d, r') := span_digits r in (c :: d, r') else ([], x)
  | [] => ([], x)
  end.

(** [NUMBER_RE]: an optional minus, then [0] or a non-zero digit and more
    digits, an optional fraction and an optional exponent. An integer
    when neither the fraction nor the exponent matches; a float otherwise,
    which is outside these values ([None]). *)
Definition starts_frac_or_exp (x : str) : bool :=
  match x with
  | c :: d :: r =>
      ((c =? 46) && is_digit d)
      || (((c =? 101) || (c =? 69))
          && (is_digit d || (((d =? 43) || (d =? 45))
                             && match r with e :: _ => is_digit e | [] => false end)))
  | _ => false
  end.

Definition parse_number (x : str) : option (json * str) :=
  let '(neg, x1) := match x with c :: r => if c =? 45 then (true, r) else (false, x) | [] => (false, x) end in
  match x1 with
  | d :: r =>
      if d =? 48 then
        if starts_frac_or_exp r then None
        else Some (JInt 0, r)
      else if is_digit d then
        let '(ds, r') := span_digits r in
        if starts_frac_or_exp r' then None
        else Some (JInt (if neg then - dec_val (d :: ds) else dec_val (d :: ds)), r')
      else None
  | [] => None
  end.

Definition starts_with (p x : str) : bool := str_eqb (firstn (List.length p) x) p.

(** [scan_once] and the array and object parsers, run with fuel. [NaN],
    [Infinity] and [-Infinity] are floats, outside these values. *)
Fixpoint parse_value (fuel : nat) (x : str) : option (json * str) :=
  match fuel with
  | O => None
  | S f =>
      match x with
      | [] => None
      | c :: r =>
          if c =? 34 then
            match scan_str r with Some (v, r') => Some (JStr v, r') | None => None end
          else if c =? 123 then
            match skip_ws r with
            | c1 :: r1 => if c1 =? 125 then Some (JObj [], r1) else parse_members f [] (skip_ws r)
            | [] => None
            end
          else if c =? 91 then
            match skip_ws r with
            | c1 :: r1 => if c1 =? 93 then Some (JArr [], r1) else parse_elements f [] (skip_ws r)
            | [] => None
            end
          else if starts_with (s "null") x then Some (JNull, skipn 4 x)
          else if starts_with (s "true") x then Some (JBool true, skipn 4 x)
          else if starts_with (s "false") x then Some (JBool false, skipn 5 x)
          else parse_number x
      end
  end
with parse_elements (fuel : nat) (acc : list json) (x : str) : option (json * str) :=
  match fuel with
  | O => None
  | S f =>
      match parse_value f x with
      | None => None
      | Some (v, r) =>
          match skip_ws r with
          | c :: r' =>
              if c =? 93 then Some (JArr (acc ++ [v]), r')
              else if c =? 44 then parse_elements f (acc ++ [v]) (skip_ws r')
              else None
          | [] => None
          end
      end
  end
with parse_members (fuel : nat) (acc : dict json) (x : str) : option (json * str) :=
  match fuel with
  | O => None
  | S f =>
      match x with
      | c :: r =>
          if c =? 34 then
            match scan_str r with
            | None => None
            | Some (k, r1) =>
                match skip_ws r1 with
                | c2 :: r2 =>
                    if c2 =? 58 then
                      match parse_value f (skip_ws r2) with
                      | None => None
                      | Some (v, r3) =>
                          let acc' := dict_set acc k v in
                          match skip_ws r3 with
                          | c4 :: r4 =>
                              if c4 =? 125 then Some (JObj acc', r4)
                              else if c4 =? 44 then parse_members f acc' (skip_ws r4)
                              else None
                          | [] => None
                          end
                    end
                    else None
                | [] => None
                end
            end
          else None
      | [] => None
      end
  end.

(** [json.loads] on a [str]: a leading BOM is refused, whitespace is
    allowed around the value, and extra data is an error. The fuel allows
    two nested calls per input character; each such pair of calls consumes
    at least one character. *)
Definition json_loads (x : str) : option json :=
  match x with
  | c :: _ => if c =? 65279 then None else
      match parse_value (S (2 * List.length x)) (skip_ws x) with
      | Some (v, r) => match skip_ws r with [] => Some v | _ => None end
      | None => None
      end
  | [] => None
  end.

(** The values a Python program holds as JSON data: strings of Unicode
    scalar values (no surrogate code points) and objects without repeated
    keys (a [dict]). *)
Definition scalar_value (c : Z) : bool :=
  (0 <=? c) && (c <=? 0x10FFFF) && negb ((0xd800 <=? c) && (c <=? 0xdfff)).

Fixpoint keys_unique (kv : list (str * json)) : bool :=
  match kv with
  | [] => true
  | (k, _) :: r => negb (existsb (fun e => str_eqb k (fst e)) r) && keys_unique r
  end.

Fixpoint json_wf (v : json) : bool :=
  match v with
  | JNull | JBool _ | JInt _ => true
  | JStr x => forallb scalar_value x
  | JArr l => forallb json_wf l
  | JObj kv => forallb (fun e => forallb scalar_value (fst e) && json_wf (snd e)) kv && keys_unique kv
  end.

(** Fuel sufficient to parse the text of [v] (one unit per value, plus one
    per element or member). *)
Fixpoint json_size (v : json) : nat :=
  match v with
  | JArr l => S (list_sum (map (fun w => S (json_size w)) l))
  | JObj kv => S (list_sum (map (fun e => S (json_size (snd e))) kv))
  | _ => 1
  end.

(** What may follow a value inside a document: the end, a comma or a
    closing bracket or brace. *)
Definition json_delim (rest : str) : bool :=
  match rest with
  | [] => true
  | c :: _ => (c =? 44) || (c =? 93) || (c =? 125)
  end.

(** *** Frames (protocol.py) *)

Inductive MessageType :=
| HELLO | HELLO_ACK
| FILE_OFFER | FILE_ACCEPT | FILE_REJECT | FILE_CHUNK | FILE_COMPLETE | FILE_ERROR
| LIST_DIR_REQUEST | LIST_DIR_RESPONSE | FILE_DOWNLOAD_REQUEST | FILE_DOWNLOAD_START
| PING | PONG
| ERROR.

Definition message_type_value (t : MessageType) : Z :=
  match t with
  | HELLO => 1 | HELLO_ACK => 2
  | FILE_OFFER => 10 | FILE_ACCEPT => 11 | FILE_REJECT => 12 | FILE_CHUNK => 13
  | FILE_COMPLETE => 14 | FILE_ERROR => 15
  | LIST_DIR_REQUEST => 20 | LIST_DIR_RESPONSE => 21
  | FILE_DOWNLOAD_REQUEST => 22 | FILE_DOWNLOAD_START => 23
  | PING => 30 | PONG => 31
  | ERROR => 99
  end.

Definition all_message_types : list MessageType :=
  [HELLO; HELLO_ACK; FILE_OFFER; FILE_ACCEPT; FILE_REJECT; FILE_CHUNK; FILE_COMPLETE;
   FILE_ERROR; LIST_DIR_REQUEST; LIST_DIR_RESPONSE; FILE_DOWNLOAD_REQUEST;
   FILE_DOWNLOAD_START; PING; PONG; ERROR].

(** [MessageType(x)]: lookup by value ([True] and [False] compare equal to
    1 and 0); anything else raises [ValueError]. *)
Definition message_type_of_int (n : Z) : option MessageType :=
  find (fun t => message_type_value t =? n) all_message_types.

Definition message_type_of_json (v : json) : option MessageType :=
  match v with
  | JInt n => message_type_of_int n
  | JBool b => message_type_of_int (if b then 1 else 0)
  | _ => None
  end.

Record Message := mkMessage { msg_type : MessageType; msg_payload : json }.

Definition PROTOCOL_VERSION : Z := 1.

Definition header_json (m : Message) : json :=
  JObj [(s "version", JInt PROTOCOL_VERSION);
        (s "type", JInt (message_type_value (msg_type m)));
        (s "payload", msg_payload m)].

(** [struct.pack(">I", n)] ([struct.error] outside [0, 2**32)) and
    [struct.unpack(">I", b)[0]]. *)
Definition struct_pack_I (n : Z) : option (list Z) :=
  if (0 <=? n) && (n <? 2 ^ 32) then
    Some [Z.land (Z.shiftr n 24) 255; Z.land (Z.shiftr n 16) 255;
          Z.land (Z.shiftr n 8) 255; Z.land n 255]
  else None.

Definition struct_unpack_I (b : list Z) : Z :=
  match b with
  | [b0; b1; b2; b3] => b0 * 2 ^ 24 + b1 * 2 ^ 16 + b2 * 2 ^ 8 + b3
  | _ => 0
  end.

(** [Message.to_bytes]; [None] where Python raises. *)
Definition to_bytes (m : Message) : option (list Z) :=
  match utf8_encode (dumps (header_json m)) with
  | None => None
  | Some header =>
      match struct_pack_I (Z.of_nat (List.length header)) with
      | Some prefix => Some (prefix ++ header)
      | None => None
      end
  end.

(** [Message.from_bytes]; [None] where Python raises (decoding errors,
    [header["type"]] on a missing key or a non-object, [MessageType(...)]
    on an unknown value). *)
Definition from_bytes (data : list Z) : option Message :=
  match utf8_decode data with
  | None => None
  | Some text =>
      match json_loads text with
      | Some (JObj header) =>
          match dict_get header (s "type") with
          | Some t =>
              match message_type_of_json t with
              | Some ty => Some (mkMessage ty (dict_get_default header (s "payload") (JObj [])))
              | None => None
              end
          | None => None
          end
      | _ => None
      end
  end.

(** [read_message] on a stream that delivers [buf] and then end of file. *)
Inductive ReadError := HeaderTooLarge | MalformedHeader.

Inductive ReadResult :=
| RMsg (m : Message) (rest : list Z)
| RNone
| RErr (e : ReadError).

(** [reader.readexactly(n)]; [None] is [IncompleteReadError]. *)
Definition readexactly (n : nat) (buf : list Z) : option (list Z * list Z) :=
  if Nat.ltb (List.length buf) n then None else Some (firstn n buf, skipn n buf).

Definition MAX_HEADER : Z := 10 * 1024 * 1024.

Definition read_message (buf : list Z) : ReadResult :=
  match readexactly 4 buf with
  | None => RNone
  | Some (header_len_data, r) =>
      let header_len := struct_unpack_I header_len_data in
      if header_len >? MAX_HEADER then RErr HeaderTooLarge
      else
        match readexactly (Z.to_nat header_len) r with
        | None => RNone
        | Some (header_data, r') =>
            match from_bytes header_data with
            | Some m => RMsg m r'
            | None => RErr MalformedHeader
            end
        end
  end.

(** *** Auxiliary notions for the frame codec proofs *)

(** Text made of ASCII characters only. *)
Definition ascii_str (x : str) : Prop := Forall (fun c => 0 <= c < 128) x.

(** One member of an object as [json.dumps] writes it: [key: value]. *)
Definition dumps_member (e : str * json) : str := encode_str (fst e) ++ s ": " ++ dumps (snd e).

(** The parser reads back the text of [v] followed by any delimiter. *)
Definition parses (v : json) : Prop :=
  forall fuel rest, json_wf v = true -> (json_size v <= fuel)%nat -> json_delim rest = true ->
  parse_value fuel (dumps v ++ rest) = Some (v, rest).




(* ================================================================== *)
(** *** File transfer over a connection (protocol.py send_file, receive_file,
        calculate_checksum) *)

Definition CHUNK_SIZE : Z := 64 * 1024.

Fixpoint read_chunks (n : nat) (fuel : nat) (data : list Z) : list (list Z) :=
  match fuel with
  | O => []
  | S f =>
      match firstn n data with
      | [] => []
      | chunk => chunk :: read_chunks n f (skipn n data)
      end
  end.

Definition file_chunks (data : list Z) : list (list Z) :=
  read_chunks (Z.to_nat CHUNK_SIZE) (S (List.length data)) data.

(** [msg.type != MessageType.X] compares the [IntEnum] values. *)
Definition msg_type_eqb (a b : MessageType) : bool := message_type_value a =? message_type_value b.

(** [msg.payload[k]]; [None] where Python raises ([KeyError], or
    [TypeError] for a payload that is not an object). *)
Definition payload_item (p : json) (k : str) : option json :=
  match p with JObj kv => dict_get kv k | _ => None end.

(** A JSON value used as a Python [int] ([bool] is a subclass of [int]);
    [None] where the comparison or [readexactly] raises [TypeError]. *)
Definition json_int (v : json) : option Z :=
  match v with
  | JInt n => Some n
  | JBool b => Some (if b then 1 else 0)
  | _ => None
  end.

Definition chunk_message (size : Z) : Message :=
  mkMessage FILE_CHUNK (JObj [(s "size", JInt size)]).

Fixpoint send_chunks (cs : list (list Z)) : option (list Z) :=
  match cs with
  | [] => Some []
  | chunk :: cs' =>
      match to_bytes (chunk_message (Z.of_nat (List.length chunk))), send_chunks cs' with
      | Some frame, Some out => Some (frame ++ chunk ++ out)
      | _, _ => None
      end
  end.

Definition send_file (data : list Z) : option (list Z * str) :=
  let cs := file_chunks data in
  match send_chunks cs with
  | Some out => Some (out, hexdigest (SHA256.digest (List.concat cs)))
  | None => None
  end.

Definition calculate_checksum (data : list Z) : str :=
  hexdigest (SHA256.digest (List.concat (file_chunks data))).

Inductive RecvFile :=
| RecvDone (written : list Z) (checksum : str) (rest : list Z)
| RecvRaised (written : list Z).

Definition chunk_size_of (payload : json) : option Z :=
  match payload_item payload (s "size") with
  | Some v => json_int v
  | None => None
  end.

Fixpoint recv_loop (fuel : nat) (buf : list Z) (received expected : Z) (written : list Z)
    : RecvFile :=
  match fuel with
  | O => RecvRaised written
  | S f =>
      if received <? expected then
        match read_message buf with
        | RMsg m r =>
            if msg_type_eqb (msg_type m) FILE_CHUNK then
              match chunk_size_of (msg_payload m) with
              | Some n =>
                  if n <? 0 then RecvRaised written
                  else
                    match readexactly (Z.to_nat n) r with
                    | Some (chunk, r') => recv_loop f r' (received + n) expected (written ++ chunk)
                    | None => RecvRaised written
                    end
              | None => RecvRaised written
              end
            else RecvRaised written
        | _ => RecvRaised written
        end
      else RecvDone written (hexdigest (SHA256.digest written)) buf
  end.

Definition receive_file (buf : list Z) (expected_size : Z) : RecvFile :=
  recv_loop (S (List.length buf)) buf 0 expected_size [].

(* ---- proofs ---- *)

(** [msg.payload.get(k, default)]; [None] where Python raises
    [AttributeError] (a payload that is not an object). *)
Definition payload_get (p : json) (k : str) (default : json) : option json :=
  match p with JObj kv => Some (dict_get_default kv k default) | _ => None end.

(** The truth value of a JSON-loaded Python value. *)
Definition json_truthy (v : json) : bool :=
  match v with
  | JNull => false
  | JBool b => b
  | JInt n => negb (n =? 0)
  | JStr x => negb (str_eqb x [])
  | JArr l => negb (Nat.eqb (List.length l) 0)
  | JObj kv => negb (Nat.eqb (List.length kv) 0)
  end.

(** [if file_info.checksum and checksum != file_info.checksum]: a [str]
    never equals a value of another type. *)
Definition json_checksum_mismatch (offered : json) (computed : str) : bool :=
  json_truthy offered &&
  negb (match offered with JStr c => str_eqb computed c | _ => false end).

(** *** FileInfo (protocol.py) *)

(** The dataclass does not check the types of its fields: they hold
    whatever [from_dict] received. *)
Record FileInfo := mkFileInfo {
  fi_name : json;
  fi_size : json;
  fi_path : json;
  fi_checksum : json;
  fi_is_dir : json
}.

(** [FileInfo.to_dict] = [asdict(self)], in field order. *)
Definition file_info_to_dict (fi : FileInfo) : json :=
  JObj [(s "name", fi_name fi); (s "size", fi_size fi); (s "path", fi_path fi);
        (s "checksum", fi_checksum fi); (s "is_dir", fi_is_dir fi)].

Definition file_info_fields : list str :=
  [s "name"; s "size"; s "path"; s "checksum"; s "is_dir"].

(** [FileInfo.from_dict(data)] passes the items of [data] as keyword
    arguments to the class: [data] must be a mapping
    whose keys are all field names ([TypeError] otherwise) and that holds
    [name], [size] and [path]; [checksum] defaults to [None] and [is_dir]
    to [False]. *)
Definition file_info_from_dict (data : json) : option FileInfo :=
  match data with
  | JObj kv =>
      if forallb (fun e => existsb (str_eqb (fst e)) file_info_fields) kv then
        match dict_get kv (s "name"), dict_get kv (s "size"), dict_get kv (s "path") with
        | Some n, Some sz, Some p =>
            Some (mkFileInfo n sz p (dict_get_default kv (s "checksum") JNull)
                    (dict_get_default kv (s "is_dir") (JBool false)))
        | _, _, _ => None
        end
      else None
  | _ => None
  end.

(** The [FileInfo] a sender builds for the local file [p] holding [data]
    ([send_file_to_device], [_handle_download_request]). *)
Definition local_file_info (p : path) (data : list Z) : FileInfo :=
  mkFileInfo (JStr (path_name p)) (JInt (Z.of_nat (List.length data))) (JStr (path_str p))
    (JStr (calculate_checksum data)) (JBool false).

(** *** The messages of a session (transfer.py) *)

Definition hello_message (device_id device_name : str) : Message :=
  mkMessage HELLO (JObj [(s "device_id", JStr device_id); (s "device_name", JStr device_name)]).
Definition hello_ack_message (device_id device_name : str) : Message :=
  mkMessage HELLO_ACK (JObj [(s "device_id", JStr device_id); (s "device_name", JStr device_name)]).
Definition pong_message : Message := mkMessage PONG (JObj []).
Definition offer_message (fi : FileInfo) : Message :=
  mkMessage FILE_OFFER (JObj [(s "file", file_info_to_dict fi)]).
Definition reject_message : Message :=
  mkMessage FILE_REJECT (JObj [(s "reason", JStr (s "User declined"))]).
Definition accept_message : Message := mkMessage FILE_ACCEPT (JObj []).
Definition checksum_error_message : Message :=
  mkMessage FILE_ERROR (JObj [(s "error", JStr (s "Checksum mismatch"))]).
Definition complete_message (p : str) : Message :=
  mkMessage FILE_COMPLETE (JObj [(s "path", JStr p)]).
Definition not_found_message : Message :=
  mkMessage ERROR (JObj [(s "error", JStr (s "File not found"))]).
Definition download_start_message (fi : FileInfo) : Message :=
  mkMessage FILE_DOWNLOAD_START (JObj [(s "file", file_info_to_dict fi)]).
Definition download_request_message (remote_path : str) : Message :=
  mkMessage FILE_DOWNLOAD_REQUEST (JObj [(s "path", JStr remote_path)]).

(** *** The server side of a connection *)

(** The settings the handlers read: [config.config.device_id],
    [device_name], [downloads_dir], [auto_accept]; the answer of the
    [on_transfer_request] hook (if set) for a device name and a file; and
    whether [on_transfer_complete] is set. *)
Record ServerConf := mkServerConf {
  sc_device_id : str;
  sc_device_name : str;
  sc_downloads_dir : str;
  sc_auto_accept : bool;
  sc_on_transfer_request : option (json -> FileInfo -> bool);
  sc_on_transfer_complete : bool
}.

(** The files of the server and the [on_transfer_complete] calls made. *)
Record Server := mkServer { srv_fs : files; srv_completed : list (str * bool) }.

(** How a handler ends: it returns, having written [out] and left [rest]
    unread, or it raises, having written [out]. *)
Inductive Step :=
| StepOk (out : list Z) (rest : list Z) (st : Server)
| StepRaised (out : list Z) (st : Server).

Definition prepend (b : list Z) (r : Step) : Step :=
  match r with
  | StepOk o rest st => StepOk (b ++ o) rest st
  | StepRaised o st => StepRaised (b ++ o) st
  end.

(** [await write_message(writer, m)] followed by the rest [k] of the
    handler; [to_bytes] raising ends the handler. *)
Definition write_then (m : Message) (st : Server) (k : Step) : Step :=
  match to_bytes m with
  | Some b => prepend b k
  | None => StepRaised [] st
  end.

(** The file at [p], if any ([p.exists() and p.is_file()], then its bytes). *)
Definition file_content (fs : files) (p : path) : option (list Z) :=
  option_map snd (find (fun e => path_eqb (resolve p) (fst e)) fs).

Section ServerSession.

Variable conf : ServerConf.

(** The frame [_handle_list_dir] writes for a request payload and the
    server's files ([None] where it raises). The file model has no
    directories, so the listing is a parameter of the session. *)
Variable list_dir_reply : json -> files -> option (list Z).

(** [_handle_file_offer] from [dest_dir = Path(...)] on, once accepted. *)
Definition receive_offered (fi : FileInfo) (r : list Z) (st : Server) : Step :=
  match fi_name fi with
  | JStr name =>
      match choose_dest (srv_fs st) (sc_downloads_dir conf) name with
      | None => StepRaised [] st
      | Some dest =>
          match json_int (fi_size fi) with
          | None => StepRaised [] (mkServer (write_file (srv_fs st) dest []) (srv_completed st))
          | Some size =>
              match receive_file r size with
              | RecvRaised w =>
                  StepRaised [] (mkServer (write_file (srv_fs st) dest w) (srv_completed st))
              | RecvDone w checksum r' =>
                  let fs1 := write_file (srv_fs st) dest w in
                  if json_checksum_mismatch (fi_checksum fi) checksum then
                    write_then checksum_error_message (mkServer fs1 (srv_completed st))
                      (StepOk [] r' (mkServer (unlink fs1 dest) (srv_completed st)))
                  else
                    write_then (complete_message (path_str dest)) (mkServer fs1 (srv_completed st))
                      (StepOk [] r' (mkServer fs1
                         (if sc_on_transfer_complete conf
                          then srv_completed st ++ [(path_str dest, true)]
                          else srv_completed st)))
              end
          end
      end
  | _ => StepRaised [] st
  end.

Definition handle_file_offer (m : Message) (device_name : json) (r : list Z) (st : Server) : Step :=
  match payload_item (msg_payload m) (s "file") with
  | None => StepRaised [] st
  | Some d =>
      match file_info_from_dict d with
      | None => StepRaised [] st
      | Some fi =>
          let accept :=
            sc_auto_accept conf ||
            match sc_on_transfer_request conf with
            | Some h => h device_name fi
            | None => false
            end in
          if negb accept then write_then reject_message st (StepOk [] r st)
          else write_then accept_message st (receive_offered fi r st)
      end
  end.

Definition handle_download_request (m : Message) (r : list Z) (st : Server) : Step :=
  match payload_get (msg_payload m) (s "path") (JStr []) with
  | Some (JStr x) =>
      let p := path_of_str x in
      match file_content (srv_fs st) p with
      | None => write_then not_found_message st (StepOk [] r st)
      | Some data =>
          write_then (download_start_message (local_file_info p data)) st
            (match send_file data with
             | Some (stream, _) => StepOk stream r st
             | None => StepRaised [] st
             end)
      end
  | _ => StepRaised [] st
  end.

Definition process_message (m : Message) (device_name : json) (r : list Z) (st : Server) : Step :=
  match msg_type m with
  | PING => write_then pong_message st (StepOk [] r st)
  | FILE_OFFER => handle_file_offer m device_name r st
  | LIST_DIR_REQUEST =>
      match list_dir_reply (msg_payload m) (srv_fs st) with
      | Some b => StepOk b r st
      | None => StepRaised [] st
      end
  | FILE_DOWNLOAD_REQUEST => handle_download_request m r st
  | _ => StepOk [] r st
  end.

(** [while self._running: msg = await read_message(reader); if not msg:
    break; await self._process_message(...)], on a server that keeps
    running. Each round reads a frame of at least four bytes, so the fuel
    of [handle_client] is never exhausted. An exception ends the session. *)
Fixpoint serve_loop (fuel : nat) (device_name : json) (buf : list Z) (st : Server)
    : list Z * Server :=
  match fuel with
  | O => ([], st)
  | S f =>
      match read_message buf with
      | RMsg m r =>
          match process_message m device_name r st with
          | StepOk o r' st' =>
              let (o', st'') := serve_loop f device_name r' st' in (o ++ o', st'')
          | StepRaised o st' => (o, st')
          end
      | _ => ([], st)
      end
  end.

(** [_handle_client] on a connection that delivers [buf] and then end of
    file: the bytes written back and the final server state. *)
Definition handle_client (buf : list Z) (st : Server) : list Z * Server :=
  match read_message buf with
  | RMsg m r =>
      if msg_type_eqb (msg_type m) HELLO then
        match payload_get (msg_payload m) (s "device_name") (JStr (s "Unknown")) with
        | Some name =>
            match to_bytes (hello_ack_message (sc_device_id conf) (sc_device_name conf)) with
            | Some ack =>
                let (o, st') := serve_loop (S (List.length r)) name r st in (ack ++ o, st')
            | None => ([], st)
            end
        | None => ([], st)
        end
      else ([], st)
  | _ => ([], st)
  end.

End ServerSession.

(** *** The client side *)

(** [ping_device]: [connected] is false when [open_connection] raises or
    times out; [reply] is what the peer sends. *)
Definition ping_device (device_id device_name : str) (connected : bool) (reply : list Z) : bool :=
  if connected then
    match to_bytes (hello_message device_id device_name) with
    | None => false
    | Some _ =>
        match read_message reply with
        | RMsg m _ => msg_type_eqb (msg_type m) HELLO_ACK
        | _ => false
        end
    end
  else false.

(** [ping_device_with_retry]: [for attempt in range(max_retries)], the
    [ping] outcome of each attempt given. The function falls off its end
    after the last failure and so returns [None]. The trace lists the
    attempts made and the [asyncio.sleep(0.5)] calls. *)
Inductive PingEvent := PingAttempt (attempt : Z) | PingSleep.

Fixpoint ping_retry_loop (max_retries : Z) (ping : Z -> bool) (attempts : list Z)
    : option bool * list PingEvent :=
  match attempts with
  | [] => (None, [])
  | attempt :: rest =>
      if ping attempt then (Some true, [PingAttempt attempt])
      else
        let (res, evs) := ping_retry_loop max_retries ping rest in
        (res, PingAttempt attempt ::
                (if attempt <? max_retries - 1 then PingSleep :: evs else evs))
  end.

Definition range0 (n : Z) : list Z := map Z.of_nat (seq 0 (Z.to_nat n)).

Definition ping_device_with_retry (max_retries : Z) (ping : Z -> bool) : option bool * list PingEvent :=
  ping_retry_loop max_retries ping (range0 max_retries).

(** [send_file_to_device] from [reader, writer = conn] on: [file_path]
    names the local file, which holds [data]; [reply] is what the peer
    sends after its [HELLO_ACK]. The result and the bytes written. *)
Definition send_file_to_device_conn (file_path : str) (data : list Z) (reply : list Z)
    : bool * list Z :=
  let fi := local_file_info (path_of_str file_path) data in
  match to_bytes (offer_message fi) with
  | None => (false, [])
  | Some offer =>
      match read_message reply with
      | RMsg m r =>
          if msg_type_eqb (msg_type m) FILE_REJECT then (false, offer)
          else if negb (msg_type_eqb (msg_type m) FILE_ACCEPT) then (false, offer)
          else
            match send_file data with
            | Some (stream, _) =>
                (match read_message r with
                 | RMsg m' _ => msg_type_eqb (msg_type m') FILE_COMPLETE
                 | _ => false
                 end, offer ++ stream)
            | None => (false, offer)
            end
      | _ => (false, offer)
      end
  end.

(** [download_from_device] from [reader, writer = conn] on, with [reply]
    what the peer sends after its [HELLO_ACK]: the returned path and the
    local files. An exception once [dest_path] is set removes the file. *)
Definition download_from_device_conn (downloads_dir remote_path : str) (reply : list Z)
    (fs : files) : option path * files :=
  match to_bytes (download_request_message remote_path) with
  | None => (None, fs)
  | Some _ =>
      match read_message reply with
      | RMsg m r =>
          if negb (msg_type_eqb (msg_type m) FILE_DOWNLOAD_START) then (None, fs)
          else
            match payload_item (msg_payload m) (s "file") with
            | None => (None, fs)
            | Some d =>
                match file_info_from_dict d with
                | None => (None, fs)
                | Some fi =>
                    match fi_name fi with
                    | JStr name =>
                        let dest := path_div (path_of_str downloads_dir) name in
                        match json_int (fi_size fi) with
                        | None => (None, unlink (write_file fs dest []) dest)
                        | Some size =>
                            match receive_file r size with
                            | RecvRaised w => (None, unlink (write_file fs dest w) dest)
                            | RecvDone w checksum _ =>
                                let fs1 := write_file fs dest w in
                                if json_checksum_mismatch (fi_checksum fi) checksum
                                then (None, unlink fs1 dest)
                                else (Some dest, fs1)
                            end
                        end
                    | _ => (None, fs)
                    end
                end
            end
      | _ => (None, fs)
      end
  end.



(** A message [read_message] gets back from its frame: JSON data of a
    Python program and a header of at most 10 MiB. *)
Definition frame_ok (m : Message) : Prop :=
  json_wf (msg_payload m) = true /\ Z.of_nat (List.length (dumps (header_json m))) <= MAX_HEADER.


(** The trace of the failed attempts [attempts] out of [max_retries]:
    each attempt, then a sleep unless it was the last allowed one. *)
Definition ping_fail_trace (max_retries : Z) (attempts : list Z) : list PingEvent :=
  List.concat (map (fun a => PingAttempt a :: (if a <? max_retries - 1 then [PingSleep] else []))
                   attempts).

(** *** Device registry persistence and forced reconnects (config.py, discovery.py) *)

(** [ConfigManager._load_devices] on a devices.json that holds the devices
    [file]: [{d["id"]: Device.from_dict(d) for d in data}]. *)
Definition load_devices (file : list Device) : dict Device :=
  fold_left (fun acc d => dict_set acc (dev_id d) d) file [].

(** Every entry of the registry is filed under its device's id, once. *)
Definition registry_keyed (ds : dict Device) : Prop :=
  Forall (fun kv => fst kv = dev_id (snd kv)) ds /\ NoDup (map fst ds).

(** devices.json reloads to the registry held in memory. *)
Definition devices_in_sync (st : Disc) : Prop :=
  registry_keyed (cfg_devices st) /\ load_devices (devices_file st) = cfg_devices st.

(** [DeviceDiscovery.force_reconnect]: [online] is the result of the one
    [_ping_device] call, [now] the timestamp. *)
Definition force_reconnect (online : bool) (now : str) (device_id : str) (st : Disc) : bool * Disc :=
  match dict_get (cfg_devices st) device_id with
  | None => (false, st)
  | Some device =>
      let st1 := with_counters st (dict_set (consecutive_failures st) device_id 0)
                   (dict_set (reconnect_attempts st) device_id 0)
                   (set_discard device_id (pending_reconnects st)) in
      if online then
        (online, emit_status device_id true
                   (update_device (set_last_seen (set_online device true) now) st1))
      else (online, st1)
  end.

(** *** Sample data for the witnesses *)

(** Sample settings and states for the witnesses. *)
Definition sample_conf (auto_accept : bool) : ServerConf :=
  mkServerConf (s "srv-id") (s "server") (s "/dl") auto_accept None true.
Definition no_listing : json -> files -> option (list Z) := fun _ _ => None.
Definition empty_server : Server := mkServer [] [].
Definition sample_device (id : str) : Device :=
  mkDevice id (s "laptop") (s "10.0.0.2") 52637 None true.


(** ** Part II - theorems *)
(* ================================================================== *)

Open Scope Q_scope.

Lemma pow2_succ (k : Z) : (0 <= k)%Z -> pow2 (k + 1) == 2 * pow2 k.
Proof.
  intros Hk. unfold pow2. rewrite Z.pow_add_r by lia.
  rewrite inject_Z_mult. rewrite Qmult_comm. reflexivity.
Qed.

Lemma pow2_ge1 (k : Z) : (0 <= k)%Z -> 1 <= pow2 k.
Proof.
  intros Hk. unfold pow2. change 1 with (inject_Z 1). rewrite <- Zle_Qle.
  assert (0 < 2 ^ k)%Z by (apply Z.pow_pos_nonneg; lia). lia.
Qed.

(** The uncapped connection delay of attempt [k] stays below the
    uncapped delay of attempt [k + 1] whatever the two jitters. *)
Lemma connect_raw_step (k : Z) (j j' : Q) :
  (1 <= k)%Z -> uniform_range 0 (1 # 2) j -> uniform_range 0 (1 # 2) j' ->
  RETRY_BASE_DELAY * pow2 (k - 1) + j <= RETRY_BASE_DELAY * pow2 (k + 1 - 1) + j'.
Proof.
  intros Hk [Hj0 Hj1] [Hj0' Hj1'].
  replace (k + 1 - 1)%Z with ((k - 1) + 1)%Z by lia.
  rewrite pow2_succ by lia.
  pose proof (pow2_ge1 (k - 1) ltac:(lia)).
  unfold RETRY_BASE_DELAY. lra.
Qed.

Lemma reconnect_raw_step (k : Z) (j j' : Q) :
  (1 <= k)%Z -> uniform_range 0 1 j -> uniform_range 0 1 j' ->
  RECONNECT_BASE_DELAY * pow2 (k - 1) + j <= RECONNECT_BASE_DELAY * pow2 (k + 1 - 1) + j'.
Proof.
  intros Hk [Hj0 Hj1] [Hj0' Hj1'].
  replace (k + 1 - 1)%Z with ((k - 1) + 1)%Z by lia.
  rewrite pow2_succ by lia.
  pose proof (pow2_ge1 (k - 1) ltac:(lia)).
  unfold RECONNECT_BASE_DELAY. lra.
Qed.

(** C7: for every choice of jitters drawn by [random.uniform], both backoff
    sequences are non-decreasing from one attempt to the next, and no delay
    exceeds its cap (5.0 s for connection retries, 30.0 s for reconnects). *)
Theorem backoff_delays_monotone_capped (jc jr : Z -> Q) :
  (forall k : Z, uniform_range 0 (1 # 2) (jc k)) ->
  (forall k : Z, uniform_range 0 1 (jr k)) ->
  (forall k : Z, (1 <= k)%Z ->
     connect_retry_delay k (jc k) <= connect_retry_delay (k + 1)%Z (jc (k + 1)%Z) /\
     reconnect_delay k (jr k) <= reconnect_delay (k + 1)%Z (jr (k + 1)%Z)) /\
  (forall k : Z, connect_retry_delay k (jc k) <= RETRY_MAX_DELAY /\
             reconnect_delay k (jr k) <= RECONNECT_MAX_DELAY).
Proof.
  intros Hjc Hjr. split.
  - intros k Hk. split.
    + unfold connect_retry_delay. apply Q.min_le_compat_r.
      apply connect_raw_step; auto.
    + unfold reconnect_delay. apply Q.min_le_compat_r.
      apply reconnect_raw_step; auto.
  - intros k. split; apply Q.le_min_r.
Qed.

Lemma backoff_delays_monotone_capped_witness :
  (forall k : Z, uniform_range 0 (1 # 2) (1 # 4)) /\
  (forall k : Z, uniform_range 0 1 (1 # 2)) /\
  connect_retry_delay 1 (1 # 4) <= connect_retry_delay 2 (1 # 4).
Proof.
  assert (H1 : forall k : Z, uniform_range 0 (1 # 2) (1 # 4))
    by (intros; split; unfold Qle; simpl; lia).
  assert (H2 : forall k : Z, uniform_range 0 1 (1 # 2))
    by (intros; split; unfold Qle; simpl; lia).
  split; [exact H1 | split; [exact H2 |]].
  exact (proj1 (proj1 (backoff_delays_monotone_capped
           (fun _ => 1 # 4) (fun _ => 1 # 2) H1 H2) 1%Z ltac:(lia))).
Defined.


Close Scope Q_scope.

(** *** Dicts and sets *)

Lemma str_eqb_refl (a : str) : str_eqb a a = true.
Proof. unfold str_eqb. destruct (list_eq_dec Z.eq_dec a a); congruence. Qed.

Lemma str_eqb_true (a b : str) : str_eqb a b = true -> a = b.
Proof. unfold str_eqb. destruct (list_eq_dec Z.eq_dec a b); congruence. Qed.

Lemma str_eqb_false (a b : str) : a <> b -> str_eqb a b = false.
Proof. unfold str_eqb. destruct (list_eq_dec Z.eq_dec a b); congruence. Qed.

Lemma dict_get_set_same {V} (d : dict V) (k : str) (v : V) :
  dict_get (dict_set d k v) k = Some v.
Proof.
  induction d as [|[k' v'] d IH]; simpl.
  - rewrite str_eqb_refl. reflexivity.
  - destruct (str_eqb k k') eqn:E; simpl; rewrite E; auto.
Qed.

Lemma dict_get_set_other {V} (d : dict V) (k k2 : str) (v : V) :
  k2 <> k -> dict_get (dict_set d k v) k2 = dict_get d k2.
Proof.
  intros Hne. induction d as [|[k' v'] d IH]; simpl.
  - rewrite str_eqb_false by auto. reflexivity.
  - destruct (str_eqb k k') eqn:E; simpl.
    + apply str_eqb_true in E. subst k'. rewrite str_eqb_false by auto. reflexivity.
    + rewrite IH. reflexivity.
Qed.

Lemma dict_get_in {V} (d : dict V) (k : str) (v : V) :
  dict_get d k = Some v -> In v (map snd d).
Proof.
  induction d as [|[k' v'] d IH]; simpl; [discriminate|].
  destruct (str_eqb k k'); [intros H; inversion H; auto | auto].
Qed.

Lemma set_mem_add (x : str) (l : list str) : set_mem x (set_add x l) = true.
Proof.
  unfold set_add. destruct (set_mem x l) eqn:E; auto.
  unfold set_mem. rewrite existsb_app. simpl. rewrite str_eqb_refl.
  rewrite orb_true_r. reflexivity.
Qed.

(** *** Liveness monitor *)

Lemma emit_status_devices (id : str) (b : bool) (st : Disc) :
  cfg_devices (emit_status id b st) = cfg_devices st /\
  devices_file (emit_status id b st) = devices_file st /\
  pending_reconnects (emit_status id b st) = pending_reconnects st /\
  loop_set (emit_status id b st) = loop_set st /\
  hook_status (emit_status id b st) = hook_status st.
Proof. unfold emit_status. destruct (hook_status st) eqn:E; repeat split; auto. Qed.

Lemma schedule_reconnect_preserves (id : str) (st : Disc) :
  cfg_devices (schedule_reconnect id st) = cfg_devices st /\
  devices_file (schedule_reconnect id st) = devices_file st /\
  (forall e, In e (disc_events st) -> In e (disc_events (schedule_reconnect id st))).
Proof.
  unfold schedule_reconnect. destruct (negb (loop_set st) || _); simpl;
    repeat split; auto. intros e He. apply in_or_app. auto.
Qed.

(** C5: an online device whose failure counter is zero stays online after
    one failed probe round (nothing persisted, no event); a second
    consecutive failed round flips it offline, persists that state to
    devices.json, emits the status event (when the hook is registered) and
    enqueues a reconnect task when none is pending for the device. The
    liveness rounds only run on the event loop handed to [start], so the
    loop is set; the store keys each device by its own identifier. *)
Theorem offline_hysteresis (st : Disc) (id : str) (d : Device) (t1 t2 : str) :
  dict_get (cfg_devices st) id = Some d ->
  dev_id d = id ->
  dev_is_online d = true ->
  dict_get_default (consecutive_failures st) id 0 = 0 ->
  loop_set st = true ->
  let st1 := check_device_with_retry false t1 id st in
  let st2 := check_device_with_retry false t2 id st1 in
  (dict_get (cfg_devices st1) id = Some d /\
   devices_file st1 = devices_file st /\ disc_events st1 = disc_events st) /\
  (exists d2, dict_get (cfg_devices st2) id = Some d2 /\ dev_is_online d2 = false /\
              In d2 (devices_file st2)) /\
  (hook_status st = true -> In (StatusEv id false) (disc_events st2)) /\
  (set_mem id (pending_reconnects st) = false ->
     In (ReconnectTask id) (disc_events st2) /\
     set_mem id (pending_reconnects st2) = true).
Proof.
  intros Hget Hid Hon Hf Hloop st1 st2.
  assert (E1 : st1 = with_counters st (dict_set (consecutive_failures st) id 1)
                       (reconnect_attempts st) (pending_reconnects st)).
  { subst st1. unfold check_device_with_retry. rewrite Hget, Hf. reflexivity. }
  assert (Hc1 : cfg_devices st1 = cfg_devices st) by (rewrite E1; reflexivity).
  assert (Hn1 : dict_get_default (consecutive_failures st1) id 0 + 1 = 2).
  { rewrite E1. unfold dict_get_default. simpl. rewrite dict_get_set_same. reflexivity. }
  set (st1' := update_device (set_online d false)
                 (with_counters st1 (dict_set (consecutive_failures st1) id 2)
                    (reconnect_attempts st1) (pending_reconnects st1))).
  set (st2' := emit_status id false st1').
  assert (E2 : st2 = if negb (set_mem id (pending_reconnects st2'))
                     then schedule_reconnect id st2' else st2').
  { subst st2 st2' st1'. unfold check_device_with_retry at 1.
    rewrite Hc1, Hget, Hon. cbv zeta. rewrite Hn1. reflexivity. }
  destruct (emit_status_devices id false st1') as (Hd & Hfile & Hp & Hl & Hh).
  assert (Hdev : dict_get (cfg_devices st1') id = Some (set_online d false)).
  { subst st1'. simpl. rewrite Hid. apply dict_get_set_same. }
  assert (Hfile' : devices_file st1' = map snd (cfg_devices st1')) by reflexivity.
  assert (Hpend : pending_reconnects st1' = pending_reconnects st) by (unfold st1'; rewrite E1; reflexivity).
  assert (Hloop' : loop_set st1' = true) by (unfold st1'; rewrite E1; exact Hloop).
  split; [rewrite E1; repeat split; assumption|].
  assert (Hst2 : cfg_devices st2 = cfg_devices st2' /\ devices_file st2 = devices_file st2' /\
                 (forall e, In e (disc_events st2') -> In e (disc_events st2))).
  { rewrite E2. destruct (set_mem id (pending_reconnects st2')); simpl;
      [repeat split; auto | apply schedule_reconnect_preserves]. }
  destruct Hst2 as (Hc2 & Hf2 & Hev2).
  split.
  - exists (set_online d false).
    rewrite Hc2, Hf2. unfold st2'. rewrite Hd, Hfile. repeat split; auto.
    rewrite Hfile'. eapply dict_get_in. exact Hdev.
  - split.
    + intros Hhook. apply Hev2. unfold st2', emit_status.
      replace (hook_status st1') with true by (unfold st1'; rewrite E1; auto).
      simpl. apply in_or_app. right. simpl. auto.
    + intros Hnp.
      unfold st2' in E2. rewrite Hp, Hpend, Hnp in E2. simpl in E2.
      rewrite E2. unfold schedule_reconnect. rewrite Hl, Hloop', Hp, Hpend, Hnp. simpl.
      split; [apply in_or_app; right; simpl; auto | apply set_mem_add].
Qed.

Lemma offline_hysteresis_witness :
  dict_get (cfg_devices disc_example) (s "dev-b") = Some device_example /\
  In (StatusEv (s "dev-b") false)
     (disc_events (check_device_with_retry false (s "t2") (s "dev-b")
                     (check_device_with_retry false (s "t1") (s "dev-b") disc_example))).
Proof.
  split; [reflexivity|].
  destruct (offline_hysteresis disc_example (s "dev-b") device_example (s "t1") (s "t2")
              eq_refl eq_refl eq_refl eq_refl eq_refl) as (_ & _ & Hev & _).
  apply Hev. reflexivity.
Defined.

(** *** New-device notifications *)

Lemma count_new_snoc (id : str) (l : list DiscEvent) (e : DiscEvent) :
  count_new id (l ++ [e]) = (count_new id l + if is_new_for id e then 1 else 0)%nat.
Proof.
  unfold count_new. rewrite filter_app, length_app. simpl.
  destruct (is_new_for id e); simpl; lia.
Qed.

(** A step that leaves the seen-set alone and emits no new-device event. *)
Definition quiet (st st' : Disc) : Prop :=
  seen_ids st' = seen_ids st /\
  forall id, count_new id (disc_events st') = count_new id (disc_events st).

Lemma quiet_refl (st : Disc) : quiet st st.
Proof. split; auto. Qed.

Lemma quiet_trans (a b c : Disc) : quiet a b -> quiet b c -> quiet a c.
Proof. intros [H1 H2] [H3 H4]. split; [congruence | intros; rewrite H4; auto]. Qed.

Lemma emit_quiet (st : Disc) (e : DiscEvent) :
  (forall id, is_new_for id e = false) -> quiet st (emit st e).
Proof.
  intros He. split; [reflexivity|]. intros id. simpl.
  rewrite count_new_snoc, He. lia.
Qed.

Lemma emit_status_quiet (id : str) (b : bool) (st : Disc) : quiet st (emit_status id b st).
Proof.
  unfold emit_status. destruct (hook_status st); [|apply quiet_refl].
  apply emit_quiet. reflexivity.
Qed.

Lemma update_device_quiet (d : Device) (st : Disc) : quiet st (update_device d st).
Proof. split; reflexivity. Qed.

Lemma remove_device_quiet (id : str) (st : Disc) : quiet st (remove_device id st).
Proof. unfold remove_device. destruct (dict_get _ _); split; reflexivity. Qed.

Lemma with_counters_quiet (st : Disc) f a p : quiet st (with_counters st f a p).
Proof. split; reflexivity. Qed.

Lemma schedule_reconnect_quiet (id : str) (st : Disc) : quiet st (schedule_reconnect id st).
Proof.
  unfold schedule_reconnect. destruct (_ || _); [apply quiet_refl|].
  eapply quiet_trans; [apply with_counters_quiet|]. apply emit_quiet. reflexivity.
Qed.

Create HintDb quiet.
Global Hint Resolve quiet_refl emit_status_quiet update_device_quiet remove_device_quiet
  with_counters_quiet schedule_reconnect_quiet : quiet.

Lemma check_device_quiet (b : bool) (now id : str) (st : Disc) :
  quiet st (check_device_with_retry b now id st).
Proof.
  unfold check_device_with_retry. destruct (dict_get _ _) as [device|]; [|apply quiet_refl].
  destruct b.
  - destruct (negb _); [|apply with_counters_quiet].
    eapply quiet_trans; [apply with_counters_quiet|].
    eapply quiet_trans; [apply update_device_quiet|]. apply emit_status_quiet.
  - destruct (_ && _); [|apply with_counters_quiet].
    assert (Q : quiet st (emit_status id false (update_device (set_online device false)
                 (with_counters st (dict_set (consecutive_failures st) id
                    (dict_get_default (consecutive_failures st) id 0 + 1))
                    (reconnect_attempts st) (pending_reconnects st))))).
    { eapply quiet_trans; [apply with_counters_quiet|].
      eapply quiet_trans; [apply update_device_quiet|]. apply emit_status_quiet. }
    destruct (negb _); [|exact Q].
    eapply quiet_trans; [exact Q|]. apply schedule_reconnect_quiet.
Qed.

(** One step outside the seeding line of [start]: the seen-set only grows,
    and a new-device notification is only emitted for an identifier that
    was not yet in it and is in it afterwards. *)
Definition step_ok (st st' : Disc) : Prop :=
  (forall x, set_mem x (seen_ids st) = true -> set_mem x (seen_ids st') = true) /\
  ((forall id, count_new id (disc_events st') = count_new id (disc_events st)) \/
   exists x, set_mem x (seen_ids st) = false /\ set_mem x (seen_ids st') = true /\
     count_new x (disc_events st') = S (count_new x (disc_events st)) /\
     forall id, id <> x -> count_new id (disc_events st') = count_new id (disc_events st)).

Lemma quiet_step_ok (st st' : Disc) : quiet st st' -> step_ok st st'.
Proof. intros [H1 H2]. split; [rewrite H1; auto | left; auto]. Qed.

Lemma set_mem_add_mono (x y : str) (l : list str) :
  set_mem x l = true -> set_mem x (set_add y l) = true.
Proof.
  unfold set_add. destruct (set_mem y l); auto.
  unfold set_mem. rewrite existsb_app. intros H. rewrite H. reflexivity.
Qed.

Lemma add_service_step_ok (i : option SvcInfo) (now : str) (st : Disc) :
  step_ok st (add_service i now st).
Proof.
  unfold add_service. destruct i as [i|]; [|apply quiet_step_ok, quiet_refl].
  destruct (negb _); [apply quiet_step_ok, quiet_refl|].
  destruct (str_eqb _ _); [apply quiet_step_ok, quiet_refl|].
  destruct (si_addresses i) as [|addr rest]; [apply quiet_step_ok, quiet_refl|].
  destruct (dict_get _ _) as [existing|].
  - destruct (_ || _); [|apply quiet_step_ok, quiet_refl].
    apply quiet_step_ok. eapply quiet_trans; [apply update_device_quiet|].
    apply emit_status_quiet.
  - destruct (set_mem (si_device_id i) (seen_ids st)) eqn:Hm;
      [apply quiet_step_ok, quiet_refl|].
    assert (Hgrow : forall x, set_mem x (seen_ids st) = true ->
                    set_mem x (set_add (si_device_id i) (seen_ids st)) = true)
      by (intros; apply set_mem_add_mono; auto).
    simpl. destruct (hook_new_device st).
    + split; [exact Hgrow|]. right. exists (si_device_id i).
      simpl. repeat split; auto using set_mem_add.
      * rewrite count_new_snoc. simpl. rewrite str_eqb_refl. lia.
      * intros id Hne. rewrite count_new_snoc. simpl.
        rewrite str_eqb_false by auto. lia.
    + destruct (hook_device_found st); unfold emit, with_seen; cbn [disc_events seen_ids];
        (split; [exact Hgrow|]); left; intros id; cbn [disc_events];
        [rewrite count_new_snoc; simpl; lia|reflexivity].
Qed.

Lemma disc_step_ok (st : Disc) (op : DiscOp) :
  op <> OpSeedSeen -> step_ok st (disc_step st op).
Proof.
  intros Hop. destruct op; simpl.
  - apply add_service_step_ok.
  - apply add_service_step_ok.
  - congruence.
  - apply quiet_step_ok, check_device_quiet.
  - apply quiet_step_ok, update_device_quiet.
  - apply quiet_step_ok, remove_device_quiet.
Qed.

(** Every identifier has at most one notification, and a notified
    identifier is in the seen-set. *)
Definition notify_inv (st : Disc) : Prop :=
  forall id, (count_new id (disc_events st) <= 1)%nat /\
             ((1 <= count_new id (disc_events st))%nat -> set_mem id (seen_ids st) = true).

Lemma step_ok_inv (st st' : Disc) : notify_inv st -> step_ok st st' -> notify_inv st'.
Proof.
  intros Hinv [Hgrow [Heq | (x & Hx & Hx' & Hcx & Hoth)]] id.
  - rewrite Heq. destruct (Hinv id) as [H1 H2]. split; auto.
  - destruct (list_eq_dec Z.eq_dec id x) as [->|Hne].
    + destruct (Hinv x) as [H1 H2].
      assert (count_new x (disc_events st) = 0%nat).
      { destruct (count_new x (disc_events st)) eqn:E; auto.
        rewrite H2 in Hx by lia. discriminate. }
      rewrite Hcx. split; [lia | auto].
    + rewrite Hoth by auto. destruct (Hinv id) as [H1 H2]. split; auto.
Qed.

Lemma run_disc_inv (ops : list DiscOp) (st : Disc) :
  notify_inv st -> (forall op, In op ops -> op <> OpSeedSeen) -> notify_inv (run_disc st ops).
Proof.
  revert st. induction ops as [|op ops IH]; intros st Hinv Hops; simpl; auto.
  apply IH; [|intros; apply Hops; simpl; auto].
  eapply step_ok_inv; [exact Hinv|]. apply disc_step_ok. apply Hops. simpl. auto.
Qed.

(** Once [start] has seeded the seen-set, any sequence of mDNS callbacks,
    probe rounds and store updates notifies each identifier at most once. *)
Lemma new_device_at_most_once_after_seed (persisted : dict Device) (own : str)
    (loop hs hn hf : bool) (ops : list DiscOp) (id : str) :
  (forall op, In op ops -> op <> OpSeedSeen) ->
  (count_new id (disc_events
     (run_disc (disc_init persisted own loop hs hn hf) (OpSeedSeen :: ops))) <= 1)%nat.
Proof.
  intros Hops. simpl. apply run_disc_inv; auto.
  intros x. unfold count_new. simpl. split; lia.
Qed.

(** C6 (code defect): the [ServiceBrowser] is started before [start]
    assigns the seeded seen-set, and the assignment replaces the set. A new
    peer [dev-x] reported by the browser before the seeding line, and again
    by an update afterwards, is announced twice by [on_new_device]. *)
Theorem new_device_notified_twice_on_startup_race :
  count_new (s "dev-x")
    (disc_events (run_disc (disc_init [] (s "dev-a") true true true false)
       [OpAddService (Some svc_x) (s "t1"); OpSeedSeen;
        OpUpdateService (Some svc_x) (s "t2")])) = 2%nat.
Proof. vm_compute. reflexivity. Qed.

(** *** Outbound connection with retry *)





(** When the handshake completes without HELLO_ACK, the loop closes the
    writer and moves to the next attempt with neither a retry event nor a
    back-off sleep. *)
Lemma connect_no_ack_no_retry_event :
  connect_with_retry (s "laptop") true MAX_RETRIES all_no_ack (fun _ => 0%Q) =
  (None, [CloseEv; CloseEv; CloseEv]).
Proof. reflexivity. Qed.

Example sha256_abc :
  hexdigest (SHA256.digest (s "abc")) =
  s "ba7816bf8f01cfea414140de5dae2223b00361a396177a9cb410ff61f20015ad".
Proof. vm_compute. reflexivity. Qed.

Example pairing_code_sample :
  pairing_code (s "dev-a") (s "192.168.1.10") 52637 = Some (s "56CC-9FC9").
Proof. vm_compute. reflexivity. Qed.

Example sha256_empty :
  hexdigest (SHA256.digest []) =
  s "e3b0c44298fc1c149afbf4c8996fb92427ae41e4649b934ca495991b7852b855".
Proof. vm_compute. reflexivity. Qed.

Example sha256_two_blocks :
  hexdigest (SHA256.digest (s "abcdbcdecdefdefgefghfghighijhijkijkljklmklmnlmnomnopnopq")) =
  s "248d6a61d20638b8e5c026930c3e6039a33ce45964ff2167f6ecedd419db06c1".
Proof. vm_compute. reflexivity. Qed.

(** *** Pairing code *)

(** Case analysis on the boolean integer comparisons of a goal. *)
Ltac zbool :=
  repeat match goal with
  | |- context [if ?c then _ else _] =>
      let E := fresh "E" in destruct c eqn:E
  end;
  repeat match goal with
  | H : (_ && _)%bool = true |- _ => apply andb_true_iff in H; destruct H
  | H : (_ && _)%bool = false |- _ => apply andb_false_iff in H; destruct H
  | H : (_ <? _) = true |- _ => apply Z.ltb_lt in H
  | H : (_ <? _) = false |- _ => apply Z.ltb_ge in H
  | H : (_ <=? _) = true |- _ => apply Z.leb_le in H
  | H : (_ <=? _) = false |- _ => apply Z.leb_gt in H
  | H : (_ =? _) = true |- _ => apply Z.eqb_eq in H
  | H : (_ =? _) = false |- _ => apply Z.eqb_neq in H
  end.

Lemma upper_hex_lower (d : Z) : 0 <= d < 16 -> upper_char (hex_lower d) = hex_upper d.
Proof. intros Hd. unfold upper_char, hex_lower, hex_upper. zbool; lia. Qed.

Lemma byte_mask_range (x : Z) : 0 <= Z.land x 255 < 256.
Proof.
  change 255 with (Z.ones 8). rewrite Z.land_ones by lia.
  apply Z.mod_pos_bound. lia.
Qed.

Lemma digest_shape (m : list Z) :
  exists b0 b1 b2 b3 rest, SHA256.digest m = b0 :: b1 :: b2 :: b3 :: rest /\
    0 <= b0 < 256 /\ 0 <= b1 < 256 /\ 0 <= b2 < 256 /\ 0 <= b3 < 256.
Proof.
  unfold SHA256.digest. cbv zeta.
  generalize (fold_left SHA256.compress (SHA256.blocks (List.length (SHA256.pad m)) (SHA256.pad m)) SHA256.H0).
  intros st.
  cbn [flat_map SHA256.be_bytes map seq app].
  eexists _, _, _, _, _. split; [reflexivity|].
  repeat split; apply byte_mask_range.
Qed.

Lemma hex2_upper_of_lower (b : Z) :
  0 <= b < 256 -> py_upper (hex2 b) = hex2_upper b.
Proof.
  intros Hb. unfold py_upper, hex2, hex2_upper. simpl.
  rewrite !upper_hex_lower; auto.
  - apply Z.mod_pos_bound. lia.
  - split; [apply Z.div_pos; lia | apply Z.div_lt_upper_bound; lia].
Qed.

(** C9: for every device identifier, local IP and port, the pairing code is
    the first eight hex characters of SHA-256 over the UTF-8 bytes of
    [device_id + ":" + local_ip + ":" + str(port)], upper-cased and split
    into two groups of four by a hyphen. (A seed without UTF-8 encoding,
    i.e. holding a lone surrogate, makes both sides undefined.) *)
Theorem pairing_code_spec (device_id ip : str) (port : Z) :
  pairing_code device_id ip port =
  option_map (fun bytes => pairing_code_from_digest (SHA256.digest bytes))
             (utf8_encode (pairing_seed device_id ip port)).
Proof.
  unfold pairing_code. destruct (utf8_encode _) as [bytes|]; [|reflexivity].
  destruct (digest_shape bytes) as (b0 & b1 & b2 & b3 & rest & Hd & H0 & H1 & H2 & H3).
  cbn [option_map]. rewrite Hd. unfold pairing_code_from_digest. f_equal.
  rewrite <- (hex2_upper_of_lower b0), <- (hex2_upper_of_lower b1),
          <- (hex2_upper_of_lower b2), <- (hex2_upper_of_lower b3) by assumption.
  reflexivity.
Qed.

(** *** Decimal rendering is injective *)

Lemma dec_val_snoc (x : str) (c : Z) : dec_val (x ++ [c]) = dec_val x * 10 + (c - 48).
Proof. unfold dec_val. rewrite fold_left_app. reflexivity. Qed.

Lemma dec_digits_fuel_val (f : nat) (n : Z) :
  0 <= n < 2 ^ Z.of_nat f -> dec_val (dec_digits_fuel f n) = n.
Proof.
  revert n; induction f as [|f IH]; intros n Hn; cbn [dec_digits_fuel].
  - change (2 ^ Z.of_nat 0) with 1 in Hn. assert (n = 0) by lia. subst. reflexivity.
  - destruct (n <? 10) eqn:E.
    + apply Z.ltb_lt in E. unfold dec_val; cbn [fold_left]. lia.
    + apply Z.ltb_ge in E. rewrite dec_val_snoc, IH.
      * pose proof (Z.div_mod n 10). pose proof (Z.mod_pos_bound n 10). lia.
      * rewrite Nat2Z.inj_succ, Z.pow_succ_r in Hn by lia.
        split; [apply Z.div_pos; lia | apply Z.div_lt_upper_bound; lia].
Qed.

Lemma dec_digits_val (n : Z) : 0 <= n -> dec_val (dec_digits n) = n.
Proof.
  intros Hn. unfold dec_digits. apply dec_digits_fuel_val. split; [lia|].
  rewrite Nat2Z.inj_succ, Z2Nat.id by apply Z.log2_nonneg.
  destruct (Z.eq_dec n 0) as [->|Hn0]; [reflexivity|].
  destruct (Z.log2_spec n) as [_ H]; [lia | exact H].
Qed.

Lemma py_str_int_inj (k j : Z) : 0 <= k -> 0 <= j -> py_str_int k = py_str_int j -> k = j.
Proof.
  intros Hk Hj E. unfold py_str_int in E.
  rewrite (proj2 (Z.ltb_ge k 0) ltac:(lia)), (proj2 (Z.ltb_ge j 0) ltac:(lia)) in E.
  rewrite <- (dec_digits_val k), <- (dec_digits_val j), E by assumption. reflexivity.
Qed.

Lemma dec_digits_fuel_range (f : nat) (n : Z) :
  0 <= n -> Forall (fun c => 48 <= c <= 57) (dec_digits_fuel f n).
Proof.
  revert n; induction f as [|f IH]; intros n Hn; cbn [dec_digits_fuel]; [constructor|].
  destruct (n <? 10) eqn:E.
  - apply Z.ltb_lt in E. constructor; [lia | constructor].
  - apply Z.ltb_ge in E. apply Forall_app. split.
    + apply IH. apply Z.div_pos; lia.
    + pose proof (Z.mod_pos_bound n 10). constructor; [lia | constructor].
Qed.

Lemma py_str_int_no_slash (k : Z) : 0 <= k -> ~ In 47 (py_str_int k).
Proof.
  intros Hk H. unfold py_str_int in H. rewrite (proj2 (Z.ltb_ge k 0) ltac:(lia)) in H.
  pose proof (dec_digits_fuel_range (S (Z.to_nat (Z.log2 k))) k Hk) as HF.
  rewrite Forall_forall in HF. specialize (HF 47 H). lia.
Qed.

(** *** Paths *)

Lemma path_eqb_true (p q : path) : path_eqb p q = true -> p = q.
Proof. unfold path_eqb. destruct (path_eq_dec p q); congruence. Qed.



Lemma split_on_no_sep (c : Z) (x w : str) : In w (split_on c x) -> ~ In c w.
Proof.
  revert w; induction x as [|y ys IH]; intros w Hw; simpl in Hw.
  - destruct Hw as [<-|[]]. simpl. auto.
  - destruct (y =? c) eqn:E.
    + destruct Hw as [<-|Hw]; [simpl; auto | eauto].
    + apply Z.eqb_neq in E. destruct (split_on c ys) as [|z zs] eqn:Es.
      * destruct Hw as [<-|[]]. simpl. intros [H|[]]; lia.
      * try rewrite Es in IH. destruct Hw as [<-|Hw].
        -- simpl. intros [H|H]; [lia | apply (IH z); [left; reflexivity | exact H]].
        -- apply IH. right; exact Hw.
Qed.

Lemma split_on_single (c : Z) (x : str) : ~ In c x -> split_on c x = [x].
Proof.
  induction x as [|y ys IH]; intros H; simpl; [reflexivity|].
  rewrite (proj2 (Z.eqb_neq y c)) by (intros ->; apply H; left; reflexivity).
  rewrite IH by (intros Hin; apply H; right; exact Hin). reflexivity.
Qed.

Lemma last_In_or {A} (l : list A) (d : A) : In (last l d) l \/ last l d = d.
Proof.
  induction l as [|a l IH]; [right; reflexivity|].
  destruct l as [|b l]; [left; left; reflexivity|].
  destruct IH as [H|H]; [left; right; exact H | right; exact H].
Qed.

Lemma path_name_no_slash (x : str) : ~ In 47 (path_name (path_of_str x)).
Proof.
  unfold path_name. destruct (last_In_or (p_parts (path_of_str x)) []) as [H|H].
  - simpl in H. apply filter_In in H. apply (split_on_no_sep 47 x), H.
  - rewrite H. simpl. auto.
Qed.

Lemma stem_no_slash (x : str) : ~ In 47 (path_stem (path_of_str x)).
Proof.
  unfold path_stem. destruct has_suffix; [|apply path_name_no_slash].
  intros H. apply (path_name_no_slash x).
  rewrite <- (firstn_skipn (Z.to_nat (rfind 46 (path_name (path_of_str x))))
                           (path_name (path_of_str x))).
  apply in_or_app. left. exact H.
Qed.

Lemma suffix_no_slash (x : str) : ~ In 47 (path_suffix (path_of_str x)).
Proof.
  unfold path_suffix. destruct has_suffix; [|simpl; auto].
  intros H. apply (path_name_no_slash x).
  rewrite <- (firstn_skipn (Z.to_nat (rfind 46 (path_name (path_of_str x))))
                           (path_name (path_of_str x))).
  apply in_or_app. right. exact H.
Qed.

Lemma path_of_str_single (c : str) :
  ~ In 47 c -> c <> [] -> c <> s "." -> path_of_str c = mkPath false [c].
Proof.
  intros H1 H2 H3. unfold path_of_str. rewrite split_on_single by exact H1.
  destruct c as [|c0 cs]; [congruence|]. f_equal.
  - apply Z.eqb_neq. intros ->. apply H1. left. reflexivity.
  - cbn [filter]. rewrite (str_eqb_false _ _ H2), (str_eqb_false _ _ H3). reflexivity.
Qed.

Lemma path_div_single (d : path) (c : str) :
  ~ In 47 c -> c <> [] -> c <> s "." -> path_div d c = mkPath (p_abs d) (p_parts d ++ [c]).
Proof. intros H1 H2 H3. unfold path_div. rewrite path_of_str_single by assumption. reflexivity. Qed.

Lemma resolve_snoc (a : bool) (ps : list str) (c : str) :
  c <> s ".." -> resolve (mkPath a (ps ++ [c])) = mkPath a (p_parts (resolve (mkPath a ps)) ++ [c]).
Proof.
  intros H. unfold resolve. cbn [p_abs p_parts]. rewrite fold_left_app. cbn [fold_left].
  unfold norm_step at 1. rewrite (str_eqb_false _ _ H). reflexivity.
Qed.

(** The name of the [k]-th candidate is one path component holding ['_']. *)
Lemma candidate_name_props (name : str) (k : Z) : 0 <= k ->
  let c := path_stem (path_of_str name) ++ s "_" ++ py_str_int k ++ path_suffix (path_of_str name) in
  ~ In 47 c /\ c <> [] /\ c <> s "." /\ c <> s "..".
Proof.
  intros Hk c.
  assert (H95 : In 95 c) by (unfold c; apply in_or_app; right; left; reflexivity).
  split; [|split; [|split]].
  - unfold c. rewrite !in_app_iff. intros [H|[H|[H|H]]].
    + exact (stem_no_slash name H).
    + change (s "_") with [95] in H. destruct H as [H|[]]. discriminate.
    + exact (py_str_int_no_slash k Hk H).
    + exact (suffix_no_slash name H).
  - intros E. rewrite E in H95. destruct H95.
  - intros E. rewrite E in H95. change (s ".") with [46] in H95.
    destruct H95 as [H|[]]. discriminate.
  - intros E. rewrite E in H95. change (s "..") with [46; 46] in H95.
    destruct H95 as [H|[H|[]]]; discriminate.
Qed.

Lemma candidate_eq (d : path) (name : str) (k : Z) : 0 <= k ->
  candidate d name k = mkPath (p_abs d) (p_parts d ++
    [path_stem (path_of_str name) ++ s "_" ++ py_str_int k ++ path_suffix (path_of_str name)]).
Proof.
  intros Hk. destruct (candidate_name_props name k Hk) as (H1 & H2 & H3 & _).
  unfold candidate. apply path_div_single; assumption.
Qed.

Lemma candidate_resolve_inj (d : path) (name : str) (k j : Z) :
  0 <= k -> 0 <= j -> resolve (candidate d name k) = resolve (candidate d name j) -> k = j.
Proof.
  intros Hk Hj E.
  destruct (candidate_name_props name k Hk) as (_ & _ & _ & Hk4).
  destruct (candidate_name_props name j Hj) as (_ & _ & _ & Hj4).
  rewrite (candidate_eq d name k Hk), (candidate_eq d name j Hj),
          (resolve_snoc _ _ _ Hk4), (resolve_snoc _ _ _ Hj4) in E.
  injection E as E. apply app_inj_tail in E. destruct E as [_ E].
  apply app_inv_head in E. injection E as E. apply app_inv_tail in E.
  apply py_str_int_inj; assumption.
Qed.

(** *** The renaming loop *)

Lemma dedup_loop_none (fuel : nat) (fs : files) (d : path) (name : str) (counter : Z) (p : path) :
  dedup_loop fuel fs d name counter p = None -> (0 < fuel)%nat ->
  path_exists fs p = true /\
  forall j, counter <= j < counter + Z.of_nat fuel - 1 -> path_exists fs (candidate d name j) = true.
Proof.
  revert counter p. induction fuel as [|f IH]; intros counter p H Hf; [lia|].
  cbn [dedup_loop] in H. destruct (path_exists fs p) eqn:Ep; [|discriminate].
  split; [reflexivity|]. intros j Hj.
  destruct f as [|f']; [lia|].
  destruct (IH (counter + 1) _ H ltac:(lia)) as [H1 H2].
  destruct (Z.eq_dec j counter) as [->|Hne]; [exact H1 | apply H2; lia].
Qed.


Lemma path_exists_in (fs : files) (p : path) :
  path_exists fs p = true -> In (resolve p) (map fst fs).
Proof.
  unfold path_exists. intros H. apply existsb_exists in H as [e [He Heq]].
  apply path_eqb_true in Heq. rewrite Heq. apply in_map, He.
Qed.

(** Every file name gets a destination: the candidates [1 .. len fs + 1]
    resolve to pairwise distinct paths, so they cannot all exist. *)
Lemma choose_dest_total (fs : files) (downloads_dir name : str) :
  exists p, choose_dest fs downloads_dir name = Some p.
Proof.
  destruct (choose_dest fs downloads_dir name) as [p|] eqn:E; [eauto | exfalso].
  unfold choose_dest in E. destruct (dedup_loop_none _ _ _ _ _ _ E ltac:(lia)) as [_ Hall].
  set (d := path_of_str downloads_dir) in *.
  set (L := map (fun j => resolve (candidate d name j)) (map Z.of_nat (seq 1 (S (List.length fs))))).
  assert (HN : NoDup L).
  { apply NoDup_map_NoDup_ForallPairs.
    - intros x y Hx Hy Hxy.
      apply in_map_iff in Hx as [a [<- _]]. apply in_map_iff in Hy as [b [<- _]].
      apply candidate_resolve_inj in Hxy; lia.
    - apply NoDup_map_NoDup_ForallPairs; [intros a b _ _; apply Nat2Z.inj | apply seq_NoDup]. }
  assert (HI : incl L (map fst fs)).
  { intros q Hq. apply in_map_iff in Hq as [j [<- Hj]].
    apply in_map_iff in Hj as [a [<- Ha]]. apply in_seq in Ha.
    apply path_exists_in, Hall. lia. }
  pose proof (NoDup_incl_length HN HI) as Hlen.
  unfold L in Hlen. rewrite !length_map, length_seq in Hlen. lia.
Qed.


Lemma unlink_not_exists (fs : files) (p : path) : path_exists (unlink fs p) p = false.
Proof.
  unfold path_exists, unlink. induction fs as [|e fs IH]; [reflexivity|].
  cbn [filter]. destruct (path_eqb (resolve p) (fst e)) eqn:E; cbn [negb existsb].
  - exact IH.
  - rewrite E. exact IH.
Qed.


Lemma checksum_mismatch_iff (offered : option str) (computed : str) :
  checksum_mismatch offered computed = true <->
  exists c, offered = Some c /\ c <> [] /\ c <> computed.
Proof.
  unfold checksum_mismatch. destruct offered as [c|].
  - rewrite andb_true_iff, !negb_true_iff. split.
    + intros [H1 H2]. exists c. split; [reflexivity|]. split.
      * intros ->. rewrite str_eqb_refl in H1. discriminate.
      * intros ->. rewrite str_eqb_refl in H2. discriminate.
    + intros [c' [E [H1 H2]]]. injection E as <-.
      split; apply str_eqb_false; congruence.
  - split; [discriminate | intros [c [E _]]; discriminate].
Qed.




(** C3 (amended): when the offered checksum is truthy (a non-empty string)
    and differs from the SHA-256 hex digest of the received bytes, the
    receiver sends FILE_ERROR, deletes the destination and records no
    completion, and the download path deletes its file and returns
    nothing; in every other case (no checksum, an empty one, or a match)
    the receiver sends FILE_COMPLETE with the final path and, when the hook
    is registered, reports the completion, and the download returns the
    path it wrote. *)
Theorem checksum_verification (hook_complete : bool) (downloads_dir name : str)
    (offered : option str) (data : list Z) (st : Recv) :
  let checksum := hexdigest (SHA256.digest data) in
  let download_dest := path_div (path_of_str downloads_dir) name in
  exists dest, choose_dest (r_fs st) downloads_dir name = Some dest /\
  ((exists c, offered = Some c /\ c <> [] /\ c <> checksum) ->
     receive_offer hook_complete downloads_dir name offered data st =
       Some (mkRecv (unlink (write_file (r_fs st) dest data) dest)
                    (r_sent st ++ [MsgFileError (s "Checksum mismatch")])
                    (r_completed st)) /\
     path_exists (unlink (write_file (r_fs st) dest data) dest) dest = false /\
     download_finish downloads_dir name offered data (r_fs st) =
       (None, unlink (write_file (r_fs st) download_dest data) download_dest) /\
     path_exists (unlink (write_file (r_fs st) download_dest data) download_dest)
       download_dest = false) /\
  (~ (exists c, offered = Some c /\ c <> [] /\ c <> checksum) ->
     receive_offer hook_complete downloads_dir name offered data st =
       Some (mkRecv (write_file (r_fs st) dest data)
                    (r_sent st ++ [MsgFileComplete (path_str dest)])
                    (if hook_complete then r_completed st ++ [(path_str dest, true)]
                     else r_completed st)) /\
     download_finish downloads_dir name offered data (r_fs st) =
       (Some download_dest, write_file (r_fs st) download_dest data)).
Proof.
  cbv zeta.
  destruct (choose_dest_total (r_fs st) downloads_dir name) as [dest Hd].
  exists dest. split; [exact Hd|].
  unfold receive_offer, download_finish. rewrite Hd. cbv zeta. split.
  - intros Hm. apply checksum_mismatch_iff in Hm. rewrite Hm.
    split; [reflexivity|]. split; [apply unlink_not_exists|].
    split; [reflexivity | apply unlink_not_exists].
  - intros Hm. destruct (checksum_mismatch offered _) eqn:E.
    + exfalso. apply Hm. apply checksum_mismatch_iff. exact E.
    + split; reflexivity.
Qed.

(** C3 counterexample: an offer whose checksum is the empty string (a
    value, not null) is not verified: the received bytes hash to
    [e3b0c442...], which differs from it, yet FILE_COMPLETE is sent, the
    completion hook runs and the download keeps its file. *)
Lemma empty_checksum_not_verified :
  Some ([] : str) <> None /\ ([] : str) <> hexdigest (SHA256.digest []) /\
  receive_offer true (s "/dl") (s "x.txt") (Some []) [] (mkRecv [] [] []) =
    Some (mkRecv [(path_of_str (s "/dl/x.txt"), [])] [MsgFileComplete (s "/dl/x.txt")]
                 [(s "/dl/x.txt", true)]) /\
  download_finish (s "/dl") (s "x.txt") (Some []) [] [] =
    (Some (path_of_str (s "/dl/x.txt")), [(path_of_str (s "/dl/x.txt"), [])]).
Proof.
  split; [discriminate|]. split; [intros E; vm_compute in E; discriminate E|].
  split; vm_compute; reflexivity.
Qed.

(** *** Bit arithmetic of the escapes and the length prefix *)

Lemma lor_low_bits (a b k : Z) :
  0 <= a -> 0 <= k -> 0 <= b < 2 ^ k -> Z.lor (a * 2 ^ k) b = a * 2 ^ k + b.
Proof.
  intros Ha Hk Hb.
  assert (Hl : Z.land (a * 2 ^ k) b = 0).
  { apply Z.bits_inj'. intros i Hi. rewrite Z.land_spec, Z.bits_0.
    destruct (Z.lt_ge_cases i k) as [Hik|Hik].
    - rewrite Z.mul_pow2_bits_low by lia. reflexivity.
    - destruct (Z.eq_dec b 0) as [->|Hb0]; [rewrite Z.bits_0; apply andb_false_r|].
      assert (Z.log2 b < k) by (apply Z.log2_lt_pow2; lia).
      rewrite (Z.bits_above_log2 b i) by lia. apply andb_false_r. }
  rewrite <- Z.lxor_lor by exact Hl. rewrite Z.add_nocarry_lxor by exact Hl. reflexivity.
Qed.

Lemma land_shiftr_mod (n k : Z) (w : nat) :
  0 <= k -> Z.land (Z.shiftr n k) (Z.ones (Z.of_nat w)) = (n / 2 ^ k) mod 2 ^ (Z.of_nat w).
Proof. intros Hk. rewrite Z.land_ones by lia. rewrite Z.shiftr_div_pow2 by lia. reflexivity. Qed.

Lemma hex_val_lower (d : Z) : 0 <= d < 16 -> hex_val (hex_lower d) = Some d.
Proof.
  intros Hd. unfold hex_lower. destruct (d <? 10) eqn:E.
  - apply Z.ltb_lt in E. unfold hex_val.
    rewrite (proj2 (Z.leb_le 48 (48 + d))), (proj2 (Z.leb_le (48 + d) 57)) by lia.
    cbn [andb]. f_equal. lia.
  - apply Z.ltb_ge in E. unfold hex_val.
    rewrite (proj2 (Z.leb_gt (87 + d) 57)) by lia. rewrite andb_false_r.
    rewrite (proj2 (Z.leb_le 97 (87 + d))), (proj2 (Z.leb_le (87 + d) 102)) by lia.
    cbn [andb]. f_equal. lia.
Qed.

Lemma hex4_u_escape (n : Z) : 0 <= n < 65536 ->
  hex4_val (hex_lower (Z.land (Z.shiftr n 12) 15)) (hex_lower (Z.land (Z.shiftr n 8) 15))
           (hex_lower (Z.land (Z.shiftr n 4) 15)) (hex_lower (Z.land n 15)) = Some n.
Proof.
  intros Hn.
  change 15 with (Z.ones (Z.of_nat 4)).
  rewrite !land_shiftr_mod by lia. rewrite Z.land_ones by lia.
  change (2 ^ Z.of_nat 4) with 16. change (2 ^ 12) with 4096.
  change (2 ^ 8) with 256. change (2 ^ 4) with 16.
  pose proof (Z.mod_pos_bound (n / 4096) 16 ltac:(lia)).
  pose proof (Z.mod_pos_bound (n / 256) 16 ltac:(lia)).
  pose proof (Z.mod_pos_bound (n / 16) 16 ltac:(lia)).
  pose proof (Z.mod_pos_bound n 16 ltac:(lia)).
  unfold hex4_val. rewrite !hex_val_lower by lia. f_equal.
  pose proof (Z.div_mod n 16 ltac:(lia)).
  pose proof (Z.div_mod (n / 16) 16 ltac:(lia)).
  pose proof (Z.div_mod (n / 256) 16 ltac:(lia)).
  rewrite Z.div_div in * by lia. change (16 * 16) with 256 in *.
  change (256 * 16) with 4096 in *.
  assert (n / 4096 < 16) by (apply Z.div_lt_upper_bound; lia).
  assert (0 <= n / 4096) by (apply Z.div_pos; lia).
  rewrite (Z.mod_small (n / 4096) 16) by lia.
  lia.
Qed.

Lemma struct_unpack_pack (n : Z) : 0 <= n < 2 ^ 32 ->
  struct_pack_I n = Some [Z.land (Z.shiftr n 24) 255; Z.land (Z.shiftr n 16) 255;
                          Z.land (Z.shiftr n 8) 255; Z.land n 255] /\
  struct_unpack_I [Z.land (Z.shiftr n 24) 255; Z.land (Z.shiftr n 16) 255;
                   Z.land (Z.shiftr n 8) 255; Z.land n 255] = n.
Proof.
  intros Hn. split.
  - unfold struct_pack_I. rewrite (proj2 (Z.leb_le 0 n)), (proj2 (Z.ltb_lt n (2 ^ 32))) by lia.
    reflexivity.
  - unfold struct_unpack_I. change 255 with (Z.ones (Z.of_nat 8)).
    rewrite !land_shiftr_mod by lia. rewrite Z.land_ones by lia.
    change (2 ^ Z.of_nat 8) with 256. change (2 ^ 24) with 16777216 in *.
    change (2 ^ 16) with 65536. change (2 ^ 8) with 256. change (2 ^ 32) with 4294967296 in Hn.
    pose proof (Z.div_mod n 256 ltac:(lia)).
    pose proof (Z.div_mod (n / 256) 256 ltac:(lia)).
    pose proof (Z.div_mod (n / 65536) 256 ltac:(lia)).
    rewrite Z.div_div in * by lia. change (256 * 256) with 65536 in *.
    change (65536 * 256) with 16777216 in *.
    assert (n / 16777216 < 256) by (apply Z.div_lt_upper_bound; lia).
    assert (0 <= n / 16777216) by (apply Z.div_pos; lia).
    rewrite (Z.mod_small (n / 16777216) 256) by lia.
    lia.
Qed.

(** *** Strings: [scanstring] inverts [py_encode_basestring_ascii] *)

Lemma scan_u_bmp (n : Z) (tail : str) : 0 <= n < 65536 -> ~ (0xd800 <= n <= 0xdbff) ->
  scan_str (u_escape n ++ tail) = cons_char n (scan_str tail).
Proof.
  intros Hn Hs. unfold u_escape. cbn [app scan_str Z.eqb Pos.eqb].
  rewrite (hex4_u_escape n Hn).
  destruct ((0xd800 <=? n) && (n <=? 0xdbff)) eqn:E; [|reflexivity].
  apply andb_true_iff in E as [E1 E2]. apply Z.leb_le in E1. apply Z.leb_le in E2. lia.
Qed.

Lemma scan_u_pair (c : Z) (tail : str) : 0x10000 <= c <= 0x10FFFF ->
  let n := c - 0x10000 in
  scan_str (u_escape (Z.lor 0xd800 (Z.land (Z.shiftr n 10) 0x3ff))
            ++ u_escape (Z.lor 0xdc00 (Z.land n 0x3ff)) ++ tail)
  = cons_char c (scan_str tail).
Proof.
  intros Hc n.
  assert (Hn : 0 <= n < 1048576) by (unfold n; lia).
  assert (Hq : 0 <= n / 1024 < 1024)
    by (split; [apply Z.div_pos; lia | apply Z.div_lt_upper_bound; lia]).
  assert (Hr : 0 <= n mod 1024 < 1024) by (apply Z.mod_pos_bound; lia).
  assert (E1 : Z.lor 0xd800 (Z.land (Z.shiftr n 10) 0x3ff) = 0xd800 + n / 1024).
  { change 0x3ff with (Z.ones (Z.of_nat 10)). rewrite land_shiftr_mod by lia.
    change (2 ^ Z.of_nat 10) with 1024. change (2 ^ 10) with 1024.
    rewrite (Z.mod_small (n / 1024) 1024) by lia.
    change 0xd800 with (54 * 2 ^ 10). rewrite lor_low_bits by lia. reflexivity. }
  assert (E2 : Z.lor 0xdc00 (Z.land n 0x3ff) = 0xdc00 + n mod 1024).
  { change 0x3ff with (Z.ones (Z.of_nat 10)). rewrite Z.land_ones by lia.
    change (2 ^ Z.of_nat 10) with 1024.
    change 0xdc00 with (55 * 2 ^ 10). rewrite lor_low_bits by (change (2 ^ 10) with 1024; lia).
    reflexivity. }
  rewrite E1, E2. unfold u_escape at 1. cbn [app scan_str Z.eqb Pos.eqb].
  rewrite (hex4_u_escape (0xd800 + n / 1024)) by lia.
  rewrite (proj2 (Z.leb_le 0xd800 (0xd800 + n / 1024))),
          (proj2 (Z.leb_le (0xd800 + n / 1024) 0xdbff)) by lia.
  unfold u_escape. cbn [app andb Z.eqb Pos.eqb].
  rewrite (hex4_u_escape (0xdc00 + n mod 1024)) by lia.
  rewrite (proj2 (Z.leb_le 0xdc00 (0xdc00 + n mod 1024))),
          (proj2 (Z.leb_le (0xdc00 + n mod 1024) 0xdfff)) by lia.
  cbn [andb]. f_equal.
  replace (0xd800 + n / 1024 - 0xd800) with (n / 1024) by lia.
  replace (0xdc00 + n mod 1024 - 0xdc00) with (n mod 1024) by lia.
  rewrite Z.shiftl_mul_pow2 by lia. rewrite lor_low_bits by (change (2 ^ 10) with 1024; lia).
  change (2 ^ 10) with 1024. pose proof (Z.div_mod n 1024 ltac:(lia)). unfold n in *. lia.
Qed.

Lemma scan_escape_char (c : Z) (tail : str) : scalar_value c = true ->
  scan_str (escape_char c ++ tail) = cons_char c (scan_str tail).
Proof.
  intros Hc. unfold scalar_value in Hc.
  apply andb_true_iff in Hc as [Hc Hs]. apply andb_true_iff in Hc as [H0 H1].
  apply Z.leb_le in H0. apply Z.leb_le in H1. apply negb_true_iff in Hs.
  unfold escape_char.
  destruct (Z.eqb_spec c 34) as [->|N34]; [reflexivity|].
  destruct (Z.eqb_spec c 92) as [->|N92]; [reflexivity|].
  destruct (Z.eqb_spec c 8) as [->|N8]; [reflexivity|].
  destruct (Z.eqb_spec c 12) as [->|N12]; [reflexivity|].
  destruct (Z.eqb_spec c 10) as [->|N10]; [reflexivity|].
  destruct (Z.eqb_spec c 13) as [->|N13]; [reflexivity|].
  destruct (Z.eqb_spec c 9) as [->|N9]; [reflexivity|].
  destruct ((c <? 32) || (126 <? c)) eqn:Ectl.
  - destruct (c <? 0x10000) eqn:Ebmp.
    + apply Z.ltb_lt in Ebmp. apply scan_u_bmp; [lia|].
      intros [Ha Hb]. apply andb_false_iff in Hs as [Hs|Hs]; apply Z.leb_gt in Hs; lia.
    + apply Z.ltb_ge in Ebmp. cbv zeta. rewrite <- app_assoc. apply scan_u_pair. lia.
  - apply orb_false_iff in Ectl as [E1 E2].
    cbn [app scan_str].
    rewrite (proj2 (Z.eqb_neq c 34) N34), (proj2 (Z.eqb_neq c 92) N92), E1. reflexivity.
Qed.

Lemma scan_encoded (x rest : str) : forallb scalar_value x = true ->
  scan_str (flat_map escape_char x ++ 34 :: rest) = Some (x, rest).
Proof.
  induction x as [|c x IH]; intros Hx; [reflexivity|].
  cbn [forallb] in Hx. apply andb_true_iff in Hx as [Hc Hx].
  cbn [flat_map]. rewrite <- app_assoc, scan_escape_char by exact Hc.
  rewrite IH by exact Hx. reflexivity.
Qed.

(** *** The frame codec: [json.loads] inverts [json.dumps] *)

Lemma utf8_encode_ascii (x : str) : ascii_str x -> utf8_encode x = Some x.
Proof.
  induction 1 as [|c x Hc Hx IH]; [reflexivity|].
  cbn [utf8_encode]. rewrite IH. unfold utf8_encode_cp.
  rewrite (proj2 (Z.ltb_ge c 0)), (proj2 (Z.ltb_lt c 0x80)) by lia. reflexivity.
Qed.

Lemma utf8_decode_ascii (x : str) : ascii_str x -> utf8_decode x = Some x.
Proof.
  induction 1 as [|c x Hc Hx IH]; [reflexivity|].
  cbn [utf8_decode]. rewrite (proj2 (Z.ltb_lt c 0x80)) by lia. rewrite IH. reflexivity.
Qed.

Lemma hex_lower_ascii (d : Z) : 0 <= d < 16 -> 0 <= hex_lower d < 128.
Proof. intros Hd. unfold hex_lower. destruct (d <? 10); lia. Qed.

Lemma land15_range (x : Z) : 0 <= Z.land x 15 < 16.
Proof.
  change 15 with (Z.ones (Z.of_nat 4)). rewrite Z.land_ones by lia.
  apply Z.mod_pos_bound. reflexivity.
Qed.

Lemma u_escape_ascii (n : Z) : ascii_str (u_escape n).
Proof.
  unfold u_escape, ascii_str.
  repeat constructor; try lia; apply hex_lower_ascii, land15_range.
Qed.

Lemma escape_char_ascii (c : Z) : ascii_str (escape_char c).
Proof.
  unfold escape_char, ascii_str.
  destruct (c =? 34); [repeat constructor; lia|].
  destruct (c =? 92); [repeat constructor; lia|].
  destruct (c =? 8); [repeat constructor; lia|].
  destruct (c =? 12); [repeat constructor; lia|].
  destruct (c =? 10); [repeat constructor; lia|].
  destruct (c =? 13); [repeat constructor; lia|].
  destruct (c =? 9); [repeat constructor; lia|].
  destruct ((c <? 32) || (126 <? c)) eqn:E.
  - destruct (c <? 0x10000); [apply u_escape_ascii|].
    apply Forall_app; split; apply u_escape_ascii.
  - apply orb_false_iff in E as [E1 E2]. apply Z.ltb_ge in E1. apply Z.ltb_ge in E2.
    repeat constructor; lia.
Qed.

Lemma encode_str_ascii (x : str) : ascii_str (encode_str x).
Proof.
  unfold encode_str, ascii_str. constructor; [lia|]. apply Forall_app; split.
  - induction x as [|c x IH]; [constructor|]. cbn [flat_map]. apply Forall_app.
    split; [apply escape_char_ascii | exact IH].
  - repeat constructor; lia.
Qed.

Lemma py_str_int_ascii (n : Z) : ascii_str (py_str_int n).
Proof.
  unfold py_str_int, dec_digits, ascii_str.
  destruct (n <? 0) eqn:E.
  - apply Z.ltb_lt in E. constructor; [lia|].
    eapply Forall_impl; [|apply dec_digits_fuel_range; lia]. cbv beta. lia.
  - apply Z.ltb_ge in E.
    eapply Forall_impl; [|apply dec_digits_fuel_range; lia]. cbv beta. lia.
Qed.

Lemma join_sep_ascii (sep : str) (l : list str) :
  ascii_str sep -> Forall ascii_str l -> ascii_str (join_sep sep l).
Proof.
  intros Hs. induction 1 as [|x l Hx Hl IH]; [constructor|].
  destruct l as [|y l]; [exact Hx|].
  change (join_sep sep (x :: y :: l)) with (x ++ sep ++ join_sep sep (y :: l)).
  apply Forall_app; split; [exact Hx|]. apply Forall_app; split; assumption.
Qed.

Lemma dumps_ascii (v : json) : ascii_str (dumps v).
Proof.
  induction v as [| b | n | x | l IH | kv IH] using json_ind_nested; unfold ascii_str.
  - repeat constructor; lia.
  - destruct b; repeat constructor; lia.
  - apply py_str_int_ascii.
  - apply encode_str_ascii.
  - cbn [dumps]. constructor; [lia|]. apply Forall_app; split; [|repeat constructor; lia].
    apply join_sep_ascii; [repeat constructor; lia|]. apply Forall_map. exact IH.
  - cbn [dumps]. constructor; [lia|]. apply Forall_app; split; [|repeat constructor; lia].
    apply join_sep_ascii; [repeat constructor; lia|]. apply Forall_map.
    eapply Forall_impl; [|exact IH]. intros [k w] Hw. cbn [fst snd] in *.
    apply Forall_app; split; [apply encode_str_ascii|].
    apply Forall_app; split; [repeat constructor; lia | exact Hw].
Qed.

Lemma dec_digits_fuel_head (f : nat) (n : Z) : 1 <= n < 2 ^ Z.of_nat f ->
  exists d ds, dec_digits_fuel f n = d :: ds /\ 49 <= d <= 57.
Proof.
  revert n; induction f as [|f IH]; intros n Hn.
  - change (2 ^ Z.of_nat 0) with 1 in Hn. lia.
  - cbn [dec_digits_fuel]. destruct (n <? 10) eqn:E.
    + apply Z.ltb_lt in E. exists (48 + n), []. split; [reflexivity | lia].
    + apply Z.ltb_ge in E.
      destruct (IH (n / 10)) as (d & ds & Hd & Hr).
      * rewrite Nat2Z.inj_succ, Z.pow_succ_r in Hn by lia.
        split; [apply Z.div_le_lower_bound; lia | apply Z.div_lt_upper_bound; lia].
      * rewrite Hd. exists d, (ds ++ [48 + n mod 10]). split; [reflexivity | exact Hr].
Qed.

Lemma dec_digits_head (n : Z) : 1 <= n ->
  exists d ds, dec_digits n = d :: ds /\ 49 <= d <= 57 /\ Forall (fun c => 48 <= c <= 57) ds.
Proof.
  intros Hn. unfold dec_digits.
  destruct (dec_digits_fuel_head (S (Z.to_nat (Z.log2 n))) n) as (d & ds & Hd & Hr).
  - split; [exact Hn|]. rewrite Nat2Z.inj_succ, Z2Nat.id by apply Z.log2_nonneg.
    destruct (Z.log2_spec n) as [_ H]; [lia | exact H].
  - exists d, ds. split; [exact Hd|]. split; [exact Hr|].
    pose proof (dec_digits_fuel_range (S (Z.to_nat (Z.log2 n))) n ltac:(lia)) as HF.
    rewrite Hd in HF. inversion HF. assumption.
Qed.

Lemma span_digits_app (ds rest : str) :
  Forall (fun c => 48 <= c <= 57) ds -> json_delim rest = true ->
  span_digits (ds ++ rest) = (ds, rest).
Proof.
  intros Hds Hr. induction Hds as [|c ds Hc Hds IH].
  - destruct rest as [|c r]; [reflexivity|]. cbn [app span_digits].
    cbn [json_delim] in Hr.
    destruct (Z.eqb_spec c 44) as [->|]; [reflexivity|].
    destruct (Z.eqb_spec c 93) as [->|]; [reflexivity|].
    destruct (Z.eqb_spec c 125) as [->|]; [reflexivity | discriminate].
  - cbn [app span_digits]. unfold is_digit.
    rewrite (proj2 (Z.leb_le 48 c)), (proj2 (Z.leb_le c 57)) by lia. cbn [andb].
    rewrite IH. reflexivity.
Qed.

Lemma delim_no_frac (rest : str) : json_delim rest = true -> starts_frac_or_exp rest = false.
Proof.
  destruct rest as [|c [|d r]]; intros H; [reflexivity | reflexivity|].
  cbn [json_delim] in H. unfold starts_frac_or_exp.
  destruct (Z.eqb_spec c 44) as [->|]; [reflexivity|].
  destruct (Z.eqb_spec c 93) as [->|]; [reflexivity|].
  destruct (Z.eqb_spec c 125) as [->|]; [reflexivity | discriminate].
Qed.

Lemma parse_number_digits (neg : bool) (d : Z) (ds rest : str) :
  49 <= d <= 57 -> Forall (fun c => 48 <= c <= 57) ds -> json_delim rest = true ->
  parse_number ((if neg then [45] else []) ++ d :: ds ++ rest)
  = Some (JInt (if neg then - dec_val (d :: ds) else dec_val (d :: ds)), rest).
Proof.
  intros Hd Hds Hr. unfold parse_number.
  destruct neg; cbn [app].
  - cbn [Z.eqb Pos.eqb]. rewrite (proj2 (Z.eqb_neq d 48)) by lia.
    unfold is_digit. rewrite (proj2 (Z.leb_le 48 d)), (proj2 (Z.leb_le d 57)) by lia. cbn [andb].
    rewrite span_digits_app, delim_no_frac by assumption. reflexivity.
  - rewrite (proj2 (Z.eqb_neq d 45)) by lia. rewrite (proj2 (Z.eqb_neq d 48)) by lia.
    unfold is_digit. rewrite (proj2 (Z.leb_le 48 d)), (proj2 (Z.leb_le d 57)) by lia. cbn [andb].
    rewrite span_digits_app, delim_no_frac by assumption. reflexivity.
Qed.

Lemma starts_with_head (p x q r : str) (c d : Z) :
  p = d :: q -> x = c :: r -> c <> d -> starts_with p x = false.
Proof.
  intros -> -> Hcd. unfold starts_with. cbn [List.length firstn].
  apply str_eqb_false. congruence.
Qed.

Lemma parse_value_other (f : nat) (c : Z) (r : str) :
  c <> 34 -> c <> 123 -> c <> 91 -> c <> 110 -> c <> 116 -> c <> 102 ->
  parse_value (S f) (c :: r) = parse_number (c :: r).
Proof.
  intros H1 H2 H3 H4 H5 H6. cbn [parse_value].
  rewrite (proj2 (Z.eqb_neq c 34) H1), (proj2 (Z.eqb_neq c 123) H2), (proj2 (Z.eqb_neq c 91) H3).
  rewrite (starts_with_head (s "null") (c :: r) (s "ull") r c 110) by (reflexivity || reflexivity || exact H4).
  rewrite (starts_with_head (s "true") (c :: r) (s "rue") r c 116) by (reflexivity || reflexivity || exact H5).
  rewrite (starts_with_head (s "false") (c :: r) (s "alse") r c 102) by (reflexivity || reflexivity || exact H6).
  reflexivity.
Qed.

Lemma parse_int (f : nat) (n : Z) (rest : str) : json_delim rest = true ->
  parse_value (S f) (py_str_int n ++ rest) = Some (JInt n, rest).
Proof.
  intros Hr. unfold py_str_int. destruct (n <? 0) eqn:En.
  - apply Z.ltb_lt in En. destruct (dec_digits_head (- n)) as (d & ds & Hd & Hdr & Hds); [lia|].
    rewrite Hd. cbn [app]. rewrite parse_value_other by lia.
    pose proof (parse_number_digits true d ds rest Hdr Hds Hr) as HP. cbn [app] in HP. rewrite HP.
    rewrite <- Hd, dec_digits_val, Z.opp_involutive by lia. reflexivity.
  - apply Z.ltb_ge in En. destruct (Z.eq_dec n 0) as [->|Hn0].
    + change (dec_digits 0) with [48]. cbn [app].
      rewrite parse_value_other by lia. unfold parse_number. cbn [Z.eqb Pos.eqb].
      rewrite delim_no_frac by exact Hr. reflexivity.
    + destruct (dec_digits_head n) as (d & ds & Hd & Hdr & Hds); [lia|].
      rewrite Hd. cbn [app]. rewrite parse_value_other by lia.
      pose proof (parse_number_digits false d ds rest Hdr Hds Hr) as HP. cbn [app] in HP. rewrite HP.
      rewrite <- Hd, dec_digits_val by lia. reflexivity.
Qed.

Lemma dumps_head (v : json) : exists c r, dumps v = c :: r /\
  (c = 110 \/ c = 116 \/ c = 102 \/ c = 45 \/ (48 <= c <= 57) \/ c = 34 \/ c = 91 \/ c = 123).
Proof.
  destruct v as [| [|] | n | x | l | kv]; cbn [dumps].
  - exists 110, (s "ull"). split; [reflexivity | lia].
  - exists 116, (s "rue"). split; [reflexivity | lia].
  - exists 102, (s "alse"). split; [reflexivity | lia].
  - unfold py_str_int. destruct (n <? 0) eqn:En.
    + eexists _, _. split; [reflexivity | lia].
    + apply Z.ltb_ge in En. destruct (Z.eq_dec n 0) as [->|Hn0].
      * exists 48, []. split; [reflexivity | lia].
      * destruct (dec_digits_head n) as (d & ds & Hd & Hdr & _); [lia|].
        exists d, ds. split; [exact Hd | lia].
  - eexists _, _. split; [reflexivity | lia].
  - eexists _, _. split; [reflexivity | lia].
  - eexists _, _. split; [reflexivity | lia].
Qed.

Lemma skip_ws_dumps (v : json) (x : str) : skip_ws (dumps v ++ x) = dumps v ++ x.
Proof.
  destruct (dumps_head v) as (c & r & Hv & Hc). rewrite Hv. cbn [app skip_ws].
  unfold is_ws.
  rewrite (proj2 (Z.eqb_neq c 32)), (proj2 (Z.eqb_neq c 9)), (proj2 (Z.eqb_neq c 10)),
          (proj2 (Z.eqb_neq c 13)) by lia. reflexivity.
Qed.

Lemma dumps_not_close (v : json) (x : str) (c : Z) (r : str) :
  dumps v ++ x = c :: r -> c <> 93 /\ c <> 125.
Proof.
  destruct (dumps_head v) as (c' & r' & Hv & Hc). rewrite Hv. cbn [app].
  intros H. injection H as <- _. lia.
Qed.

Lemma dict_get_app {V} (a b : dict V) (k : str) :
  dict_get (a ++ b) k = match dict_get a k with Some v => Some v | None => dict_get b k end.
Proof.
  induction a as [|[k' v'] a IH]; [reflexivity|]. cbn [app dict_get].
  destruct (str_eqb k k'); [reflexivity | exact IH].
Qed.

Lemma dict_set_absent {V} (d : dict V) (k : str) (v : V) :
  dict_get d k = None -> dict_set d k v = d ++ [(k, v)].
Proof.
  induction d as [|[k' v'] d IH]; [reflexivity|]. cbn [dict_get dict_set app].
  destruct (str_eqb k k'); [discriminate|]. intros H. rewrite IH by exact H. reflexivity.
Qed.

Lemma join_sep_head (sep x : str) (L : list str) (Y : str) :
  exists Y', join_sep sep (x :: L) ++ Y = x ++ Y'.
Proof.
  destruct L as [|y L]; cbn [join_sep].
  - exists Y. reflexivity.
  - eexists. rewrite <- app_assoc. reflexivity.
Qed.

Lemma skip_ws_join (v : json) (L : list str) (Y : str) :
  skip_ws (join_sep (s ", ") (dumps v :: L) ++ Y) = join_sep (s ", ") (dumps v :: L) ++ Y.
Proof.
  destruct (join_sep_head (s ", ") (dumps v) L Y) as [Y' ->]. apply skip_ws_dumps.
Qed.

Lemma join_comma_cons2 (x y : str) (L : list str) :
  join_sep (s ", ") (x :: y :: L) = x ++ 44 :: 32 :: join_sep (s ", ") (y :: L).
Proof. reflexivity. Qed.

Lemma parse_elements_dumps (l : list json) : Forall parses l ->
  forall acc fuel rest, l <> [] -> forallb json_wf l = true ->
  (list_sum (map (fun w => S (json_size w)) l) <= fuel)%nat ->
  parse_elements fuel acc (join_sep (s ", ") (map dumps l) ++ 93 :: rest) = Some (JArr (acc ++ l), rest).
Proof.
  induction 1 as [|w l Hw Hl IH]; intros acc fuel rest Hne Hwf Hf; [congruence|].
  cbn [forallb] in Hwf. apply andb_true_iff in Hwf as [Hw1 Hwf].
  cbn [map list_sum fold_right] in Hf. destruct fuel as [|f]; [lia|].
  destruct l as [|w2 l].
  - cbn [map join_sep parse_elements]. rewrite Hw by first [assumption | reflexivity | lia].
    reflexivity.
  - change (map dumps (w :: w2 :: l)) with (dumps w :: dumps w2 :: map dumps l).
    rewrite join_comma_cons2, <- app_assoc. cbn [app parse_elements].
    rewrite Hw by first [assumption | reflexivity | lia].
    cbn [skip_ws is_ws Z.eqb Pos.eqb orb].
    rewrite skip_ws_join.
    rewrite <- (map_cons dumps w2 l).
    rewrite IH by first [assumption | congruence | (cbn [map list_sum fold_right] in *; lia)].
    rewrite <- app_assoc. reflexivity.
Qed.

Lemma member_text (k : str) (w : json) (Y : str) :
  dumps_member (k, w) ++ Y = 34 :: flat_map escape_char k ++ 34 :: 58 :: 32 :: dumps w ++ Y.
Proof. unfold dumps_member, encode_str. cbn [fst snd app]. rewrite <- !app_assoc. reflexivity. Qed.

Lemma skip_ws_members (e : str * json) (L : list str) (Y : str) :
  skip_ws (join_sep (s ", ") (dumps_member e :: L) ++ Y) = join_sep (s ", ") (dumps_member e :: L) ++ Y.
Proof.
  destruct (join_sep_head (s ", ") (dumps_member e) L Y) as [Y' ->].
  destruct e as [k w]. rewrite member_text. reflexivity.
Qed.

Lemma parse_members_dumps (kv : list (str * json)) : Forall (fun e => parses (snd e)) kv ->
  forall acc fuel rest, kv <> [] ->
  forallb (fun e => forallb scalar_value (fst e) && json_wf (snd e)) kv = true ->
  keys_unique kv = true ->
  Forall (fun e => dict_get acc (fst e) = None) kv ->
  (list_sum (map (fun e => S (json_size (snd e))) kv) <= fuel)%nat ->
  parse_members fuel acc (join_sep (s ", ") (map dumps_member kv) ++ 125 :: rest)
  = Some (JObj (acc ++ kv), rest).
Proof.
  induction 1 as [|[k w] kv Hw Hl IH]; intros acc fuel rest Hne Hwf Hu Hacc Hf; [congruence|].
  cbn [fst snd] in Hw.
  cbn [forallb fst snd] in Hwf. apply andb_true_iff in Hwf as [Hkw Hwf].
  apply andb_true_iff in Hkw as [Hk Hw1].
  cbn [keys_unique] in Hu. apply andb_true_iff in Hu as [Hnk Hu]. apply negb_true_iff in Hnk.
  inversion Hacc as [|? ? Hak Hacc']; subst. cbn [fst] in Hak.
  cbn [map list_sum fold_right snd] in Hf. destruct fuel as [|f]; [lia|].
  destruct kv as [|[k2 w2] kv].
  - cbn [map join_sep]. rewrite member_text. cbn [parse_members Z.eqb Pos.eqb].
    rewrite scan_encoded by exact Hk.
    cbn [skip_ws is_ws Z.eqb Pos.eqb orb]. rewrite skip_ws_dumps.
    rewrite Hw by first [assumption | reflexivity | lia].
    cbn [skip_ws is_ws Z.eqb Pos.eqb orb]. rewrite dict_set_absent by exact Hak. reflexivity.
  - cbn [map]. rewrite join_comma_cons2, <- app_assoc, member_text.
    cbn [app parse_members Z.eqb Pos.eqb].
    rewrite scan_encoded by exact Hk.
    cbn [skip_ws is_ws Z.eqb Pos.eqb orb].
    rewrite skip_ws_dumps.
    rewrite Hw by first [assumption | reflexivity | lia].
    cbn [skip_ws is_ws Z.eqb Pos.eqb orb]. rewrite dict_set_absent by exact Hak.
    rewrite skip_ws_members. rewrite <- (map_cons dumps_member (k2, w2) kv).
    rewrite IH.
    + rewrite <- app_assoc. reflexivity.
    + congruence.
    + exact Hwf.
    + exact Hu.
    + apply Forall_forall. intros [k' w'] Hin. cbn [fst]. rewrite dict_get_app.
      rewrite Forall_forall in Hacc'. pose proof (Hacc' (k', w') Hin) as Hk'. cbn [fst] in Hk'. rewrite Hk'. cbn [dict_get].
      rewrite str_eqb_false; [reflexivity|]. intros ->.
      assert (existsb (fun e => str_eqb k (fst e)) ((k2, w2) :: kv) = true) as Hc.
      { apply existsb_exists. exists (k, w'). split; [exact Hin | apply str_eqb_refl]. }
      congruence.
    + cbn [map list_sum fold_right snd] in *. lia.
Qed.

Lemma dumps_obj (kv : list (str * json)) :
  dumps (JObj kv) = 123 :: join_sep (s ", ") (map dumps_member kv) ++ [125].
Proof. reflexivity. Qed.

Lemma parse_dumps (v : json) : parses v.
Proof.
  induction v as [| b | n | x | l IH | kv IH] using json_ind_nested;
    intros fuel rest Hwf Hf Hr; (destruct fuel as [|f]; [cbn [json_size] in Hf; lia|]).
  - reflexivity.
  - destruct b; reflexivity.
  - apply parse_int. exact Hr.
  - cbn [dumps]. unfold encode_str. cbn [app]. rewrite <- app_assoc. cbn [app parse_value Z.eqb Pos.eqb].
    rewrite scan_encoded by exact Hwf. reflexivity.
  - cbn [json_wf] in Hwf. cbn [json_size] in Hf. destruct l as [|w l].
    + reflexivity.
    + cbn [dumps app]. rewrite <- app_assoc. cbn [app parse_value Z.eqb Pos.eqb].
      cbn [map]. rewrite skip_ws_join.
      destruct (join_sep_head (s ", ") (dumps w) (map dumps l) (93 :: rest)) as [Y' E].
      rewrite E.
      destruct (dumps_head w) as (c & r & Hw & Hc). rewrite Hw. cbn [app].
      rewrite (proj2 (Z.eqb_neq c 93)) by lia.
      change (c :: r ++ Y') with ((c :: r) ++ Y'). rewrite <- Hw, <- E, <- (map_cons dumps w l). cbn [app].
      rewrite parse_elements_dumps by first [exact IH | congruence | exact Hwf | lia].
      reflexivity.
  - cbn [json_wf] in Hwf. apply andb_true_iff in Hwf as [Hwf Hu].
    cbn [json_size] in Hf. destruct kv as [|[k w] kv].
    + reflexivity.
    + rewrite dumps_obj. cbn [app]. rewrite <- app_assoc. cbn [app parse_value Z.eqb Pos.eqb].
      cbn [map]. rewrite skip_ws_members.
      destruct (join_sep_head (s ", ") (dumps_member (k, w)) (map dumps_member kv) (125 :: rest))
        as [Y' E].
      rewrite E, member_text. cbn [Z.eqb Pos.eqb].
      rewrite <- member_text, <- E, <- (map_cons dumps_member (k, w) kv). cbn [app].
      rewrite parse_members_dumps by first [exact IH | congruence | exact Hwf | exact Hu | lia
                                          | (apply Forall_forall; reflexivity)].
      reflexivity.
Qed.

Lemma elems_size (l : list json) :
  Forall (fun w => (json_size w <= List.length (dumps w))%nat) l -> l <> [] ->
  (S (list_sum (map (fun w => S (json_size w)) l)) <= List.length (join_sep (s ", ") (map dumps l)) + 2)%nat.
Proof.
  induction 1 as [|w l Hw Hl IH]; intros Hne; [congruence|].
  destruct l as [|w2 l].
  - cbn [map list_sum fold_right join_sep]. lia.
  - change (map dumps (w :: w2 :: l)) with (dumps w :: dumps w2 :: map dumps l).
    rewrite join_comma_cons2, length_app. cbn [List.length].
    specialize (IH ltac:(congruence)). cbn [map list_sum fold_right] in *. lia.
Qed.

Lemma member_length (e : str * json) :
  (List.length (dumps_member e) >= 4 + List.length (dumps (snd e)))%nat.
Proof.
  destruct e as [k w]. rewrite <- (app_nil_r (dumps_member (k, w))), member_text.
  cbn [List.length snd]. rewrite length_app. cbn [List.length]. rewrite length_app. lia.
Qed.

Lemma members_size (kv : list (str * json)) :
  Forall (fun e => (json_size (snd e) <= List.length (dumps (snd e)))%nat) kv -> kv <> [] ->
  (S (list_sum (map (fun e => S (json_size (snd e))) kv))
   <= List.length (join_sep (s ", ") (map dumps_member kv)) + 2)%nat.
Proof.
  induction 1 as [|e kv He Hl IH]; intros Hne; [congruence|].
  pose proof (member_length e).
  destruct kv as [|e2 kv].
  - cbn [map list_sum fold_right join_sep]. lia.
  - change (map dumps_member (e :: e2 :: kv)) with (dumps_member e :: dumps_member e2 :: map dumps_member kv).
    rewrite join_comma_cons2, length_app. cbn [List.length].
    specialize (IH ltac:(congruence)). cbn [map list_sum fold_right] in *. lia.
Qed.

Lemma json_size_le (v : json) : (json_size v <= List.length (dumps v))%nat.
Proof.
  induction v as [| b | n | x | l IH | kv IH] using json_ind_nested.
  - cbn. lia.
  - destruct b; cbn; lia.
  - destruct (dumps_head (JInt n)) as (c & r & Hv & _). rewrite Hv. cbn. lia.
  - cbn [json_size dumps]. unfold encode_str. cbn [List.length]. lia.
  - destruct l as [|w l]; [cbn; lia|].
    cbn [dumps List.length]. rewrite length_app. cbn [List.length].
    pose proof (elems_size (w :: l) IH ltac:(congruence)). cbn [json_size]. lia.
  - destruct kv as [|e kv]; [cbn; lia|].
    rewrite dumps_obj. cbn [List.length]. rewrite length_app. cbn [List.length].
    pose proof (members_size (e :: kv) IH ltac:(congruence)). cbn [json_size]. lia.
Qed.

Lemma json_loads_dumps (v : json) : json_wf v = true -> json_loads (dumps v) = Some v.
Proof.
  intros Hwf. unfold json_loads.
  destruct (dumps_head v) as (c & r & Hv & Hc). rewrite Hv.
  rewrite (proj2 (Z.eqb_neq c 65279)) by lia. rewrite <- Hv.
  pose proof (skip_ws_dumps v []) as Hs. rewrite app_nil_r in Hs. rewrite Hs.
  pose proof (json_size_le v) as Hz.
  pose proof (parse_dumps v (S (2 * List.length (dumps v))) [] Hwf ltac:(lia) eq_refl) as Hp.
  rewrite app_nil_r in Hp. rewrite Hp. reflexivity.
Qed.

Lemma header_json_wf (m : Message) : json_wf (msg_payload m) = true -> json_wf (header_json m) = true.
Proof. intros H. unfold header_json. cbn [json_wf forallb fst snd]. rewrite H. reflexivity. Qed.

Lemma from_bytes_header (m : Message) : json_wf (msg_payload m) = true ->
  from_bytes (dumps (header_json m)) = Some m.
Proof.
  intros Hwf. unfold from_bytes. rewrite utf8_decode_ascii by apply dumps_ascii.
  rewrite json_loads_dumps by (apply header_json_wf; exact Hwf).
  destruct m as [t p]. destruct t; reflexivity.
Qed.

Lemma firstn_app_length {A} (a b : list A) : firstn (List.length a) (a ++ b) = a.
Proof. induction a as [|x a IH]; [reflexivity|]. cbn. rewrite IH. reflexivity. Qed.

Lemma skipn_app_length {A} (a b : list A) : skipn (List.length a) (a ++ b) = b.
Proof. induction a as [|x a IH]; [reflexivity|]. cbn. exact IH. Qed.










(** C2 (amended): [read_message] returns no message when fewer than 4
    bytes are available; raises the header-too-large error when the
    4-byte big-endian length exceeds 10 MiB; and returns no message (the
    same result as a clean end of stream) when the length is at most
    10 MiB but fewer header bytes than announced are available. *)
Theorem frame_read_errors (buf : list Z) :
  ((List.length buf < 4)%nat -> read_message buf = RNone) /\
  (forall p r, buf = p ++ r -> List.length p = 4%nat -> MAX_HEADER < struct_unpack_I p ->
     read_message buf = RErr HeaderTooLarge) /\
  (forall p r, buf = p ++ r -> List.length p = 4%nat -> struct_unpack_I p <= MAX_HEADER ->
     (List.length r < Z.to_nat (struct_unpack_I p))%nat -> read_message buf = RNone).
Proof.
  unfold read_message, readexactly. split; [|split].
  - intros H. rewrite (proj2 (Nat.ltb_lt _ _) H). reflexivity.
  - intros p r -> Hp Hm. rewrite length_app, Hp.
    rewrite (proj2 (Nat.ltb_ge _ _)) by lia.
    rewrite <- Hp, firstn_app_length, skipn_app_length.
    rewrite Z.gtb_ltb, (proj2 (Z.ltb_lt _ _) Hm). reflexivity.
  - intros p r -> Hp Hm Hr. rewrite length_app, Hp.
    rewrite (proj2 (Nat.ltb_ge _ _)) by lia.
    rewrite <- Hp, firstn_app_length, skipn_app_length.
    rewrite Z.gtb_ltb, (proj2 (Z.ltb_ge _ _) Hm).
    rewrite (proj2 (Nat.ltb_lt _ _) Hr). reflexivity.
Qed.

(** C2 counterexample: a frame announcing a 5-byte header followed by
    only one byte reads as no message, exactly like an empty stream: a
    short read mid-frame is not a fatal error. *)
Lemma truncated_body_is_clean_close :
  read_message [0; 0; 0; 5; 123] = RNone /\ read_message [] = RNone /\
  read_message [0; 0; 0; 5; 123] = read_message [].
Proof. vm_compute. split; [reflexivity | split; reflexivity]. Qed.

(** ** Transfers, sessions and the device registry *)

Lemma read_message_to_bytes (m : Message) (bytes rest : list Z) :
  json_wf (msg_payload m) = true ->
  Z.of_nat (List.length (dumps (header_json m))) <= MAX_HEADER ->
  to_bytes m = Some bytes ->
  read_message (bytes ++ rest) = RMsg m rest /\ (4 <= List.length bytes)%nat.
Proof.
  intros Hwf Hlen Hb. unfold to_bytes in Hb. rewrite utf8_encode_ascii in Hb by apply dumps_ascii.
  assert (Hn : 0 <= Z.of_nat (List.length (dumps (header_json m))) < 2 ^ 32)
    by (unfold MAX_HEADER in Hlen; lia).
  destruct (struct_unpack_pack _ Hn) as [Hp Hu]. rewrite Hp in Hb.
  apply (f_equal (fun o => match o with Some b => b | None => [] end)) in Hb.
  cbv beta iota in Hb. subst bytes. split.
  - unfold read_message, readexactly. cbn [app].
    rewrite (proj2 (Nat.ltb_ge _ 4)) by (cbn [List.length]; lia). cbn [firstn skipn].
    rewrite Hu. rewrite Z.gtb_ltb. rewrite (proj2 (Z.ltb_ge _ _) Hlen).
    rewrite Nat2Z.id. rewrite length_app.
    rewrite (proj2 (Nat.ltb_ge _ _)) by lia.
    rewrite firstn_app_length, skipn_app_length, from_bytes_header by exact Hwf.
    reflexivity.
  - cbn [List.length app]. lia.
Qed.

Lemma dec_digits_fuel_length (f : nat) (n : Z) : (List.length (dec_digits_fuel f n) <= f)%nat.
Proof.
  revert n. induction f as [|f IH]; intros n; cbn [dec_digits_fuel List.length]; [lia|].
  destruct (n <? 10); cbn [List.length]; [lia|].
  rewrite length_app. cbn [List.length]. specialize (IH (n / 10)). lia.
Qed.

Lemma chunk_header_length (n : Z) :
  List.length (dumps (header_json (chunk_message n))) = (49 + List.length (py_str_int n))%nat.
Proof.
  unfold header_json, chunk_message. simpl. repeat progress (rewrite ?length_app; simpl). lia.
Qed.

Lemma py_str_int_length (n : Z) : 0 <= n ->
  (List.length (py_str_int n) <= S (Z.to_nat (Z.log2 n)))%nat.
Proof.
  intros Hn. unfold py_str_int. rewrite (proj2 (Z.ltb_ge n 0)) by lia.
  apply dec_digits_fuel_length.
Qed.

Lemma chunk_frame (n : Z) : 0 <= n < 2 ^ 32 ->
  exists frame, to_bytes (chunk_message n) = Some frame /\ (4 <= List.length frame)%nat /\
    forall rest, read_message (frame ++ rest) = RMsg (chunk_message n) rest.
Proof.
  intros Hn.
  assert (Hlen : Z.of_nat (List.length (dumps (header_json (chunk_message n)))) <= MAX_HEADER).
  { rewrite chunk_header_length. pose proof (py_str_int_length n (proj1 Hn)) as H.
    assert (Z.log2 n < 32).
    { destruct (Z.eq_dec n 0) as [->|]; [cbn; lia|]. apply Z.log2_lt_pow2; lia. }
    unfold MAX_HEADER. lia. }
  assert (Hwf : json_wf (msg_payload (chunk_message n)) = true) by reflexivity.
  unfold to_bytes. rewrite utf8_encode_ascii by apply dumps_ascii.
  assert (Hn' : 0 <= Z.of_nat (List.length (dumps (header_json (chunk_message n)))) < 2 ^ 32)
    by (unfold MAX_HEADER in Hlen; lia).
  destruct (struct_unpack_pack _ Hn') as [Hp _]. rewrite Hp.
  eexists. split; [reflexivity|].
  assert (Hb : to_bytes (chunk_message n) = Some ([Z.land (Z.shiftr (Z.of_nat (List.length (dumps (header_json (chunk_message n))))) 24) 255;
      Z.land (Z.shiftr (Z.of_nat (List.length (dumps (header_json (chunk_message n))))) 16) 255;
      Z.land (Z.shiftr (Z.of_nat (List.length (dumps (header_json (chunk_message n))))) 8) 255;
      Z.land (Z.of_nat (List.length (dumps (header_json (chunk_message n))))) 255] ++ dumps (header_json (chunk_message n)))).
  { unfold to_bytes. rewrite utf8_encode_ascii by apply dumps_ascii. rewrite Hp. reflexivity. }
  split.
  - exact (proj2 (read_message_to_bytes _ _ [] Hwf Hlen Hb)).
  - intros rest. exact (proj1 (read_message_to_bytes _ _ rest Hwf Hlen Hb)).
Qed.

Lemma read_chunks_spec (n : nat) : (0 < n)%nat -> forall fuel data,
  (List.length data < fuel)%nat ->
  List.concat (read_chunks n fuel data) = data /\
  Forall (fun c => c <> [] /\ (List.length c <= n)%nat) (read_chunks n fuel data).
Proof.
  intros Hn fuel. induction fuel as [|f IH]; intros data Hl; [lia|].
  cbn [read_chunks]. destruct (firstn n data) as [|z l] eqn:E.
  - destruct data as [|x data]; [split; [reflexivity | constructor]|].
    destruct n; [lia|]. discriminate.
  - rewrite <- E.
    assert (Hd : data <> []) by (intros ->; destruct n; discriminate).
    destruct (IH (skipn n data)) as [Hc Hf].
    { rewrite length_skipn. destruct data; [congruence|]. cbn [List.length] in *. lia. }
    split.
    + cbn [List.concat]. rewrite Hc. apply firstn_skipn.
    + constructor; [|exact Hf]. split; [rewrite E; discriminate|].
      rewrite length_firstn. lia.
Qed.

Lemma file_chunks_spec (data : list Z) :
  List.concat (file_chunks data) = data /\
  Forall (fun c => c <> [] /\ (List.length c <= Z.to_nat CHUNK_SIZE)%nat) (file_chunks data).
Proof. apply read_chunks_spec; [unfold CHUNK_SIZE; lia | lia]. Qed.

Lemma recv_loop_S (f : nat) buf received expected written :
  recv_loop (S f) buf received expected written =
  if received <? expected then
    match read_message buf with
    | RMsg m r =>
        if msg_type_eqb (msg_type m) FILE_CHUNK then
          match chunk_size_of (msg_payload m) with
          | Some n =>
              if n <? 0 then RecvRaised written
              else
                match readexactly (Z.to_nat n) r with
                | Some (chunk, r') => recv_loop f r' (received + n) expected (written ++ chunk)
                | None => RecvRaised written
                end
          | None => RecvRaised written
          end
        else RecvRaised written
    | _ => RecvRaised written
    end
  else RecvDone written (hexdigest (SHA256.digest written)) buf.
Proof. reflexivity. Qed.

Lemma readexactly_app (a b : list Z) :
  readexactly (List.length a) (a ++ b) = Some (a, b).
Proof.
  unfold readexactly. rewrite length_app, (proj2 (Nat.ltb_ge _ _)) by lia.
  rewrite firstn_app_length, skipn_app_length. reflexivity.
Qed.

Lemma recv_chunks (cs : list (list Z)) : forall out rest f received expected written,
  Forall (fun c => c <> [] /\ Z.of_nat (List.length c) < 2 ^ 32) cs ->
  send_chunks cs = Some out ->
  received + Z.of_nat (List.length (List.concat cs)) <= expected ->
  recv_loop (List.length cs + f) (out ++ rest) received expected written =
  recv_loop f rest (received + Z.of_nat (List.length (List.concat cs))) expected
    (written ++ List.concat cs).
Proof.
  induction cs as [|c cs IH]; intros out rest f received expected written Hcs Hs Hle.
  - cbn in Hs. injection Hs as <-. cbn. rewrite Z.add_0_r, app_nil_r. reflexivity.
  - inversion Hcs as [|c' cs' [Hne Hlt] Hcs']; subst c' cs'.
    cbn [send_chunks] in Hs.
    destruct (chunk_frame (Z.of_nat (List.length c)) ltac:(lia)) as [frame [Hf [_ Hr]]].
    rewrite Hf in Hs. destruct (send_chunks cs) as [out'|] eqn:Hs'; [|discriminate].
    injection Hs as <-.
    assert (Hc0 : (0 < List.length c)%nat) by (destruct c; [congruence | cbn; lia]).
    cbn [List.concat] in *. rewrite length_app in *.
    cbn [List.length Nat.add]. rewrite recv_loop_S.
    rewrite (proj2 (Z.ltb_lt _ _)) by lia.
    rewrite <- !app_assoc, Hr. cbn [msg_type_eqb message_type_value msg_type msg_payload chunk_message Z.eqb Pos.eqb].
    change (chunk_size_of (JObj [(s "size", JInt (Z.of_nat (List.length c)))]))
      with (Some (Z.of_nat (List.length c))). cbv beta iota.
    rewrite (proj2 (Z.ltb_ge _ 0)) by lia. rewrite Nat2Z.id, readexactly_app.
    rewrite (IH out' rest f) by (auto; lia).
    rewrite <- app_assoc. f_equal. lia.
Qed.

Lemma send_chunks_some (cs : list (list Z)) :
  Forall (fun c => c <> [] /\ Z.of_nat (List.length c) < 2 ^ 32) cs ->
  exists out, send_chunks cs = Some out /\ (List.length cs <= List.length out)%nat.
Proof.
  induction cs as [|c cs IH]; intros Hcs; [exists []; split; [reflexivity | cbn; lia]|].
  inversion Hcs as [|c' cs' [Hne Hlt] Hcs']; subst c' cs'.
  destruct (IH Hcs') as [out [Ho Hl]].
  destruct (chunk_frame (Z.of_nat (List.length c)) ltac:(lia)) as [frame [Hf [Hf4 _]]].
  exists (frame ++ c ++ out). cbn [send_chunks]. rewrite Hf, Ho. split; [reflexivity|].
  rewrite !length_app. cbn [List.length]. lia.
Qed.

Lemma file_chunks_small (data : list Z) :
  Forall (fun c => c <> [] /\ Z.of_nat (List.length c) < 2 ^ 32) (file_chunks data).
Proof.
  destruct (file_chunks_spec data) as [_ Hf]. eapply Forall_impl; [|exact Hf].
  intros c [Hne Hl]. split; [exact Hne|]. unfold CHUNK_SIZE in Hl. cbn in Hl. lia.
Qed.

(** Sending and receiving a file: [send_file] writes the file as
    FILE_CHUNK frames of at most 64 KiB each followed by the chunk bytes, and
    returns the SHA-256 hex digest of the bytes sent, which is
    [calculate_checksum] of the file and the digest of its whole content;
    [receive_file] on that stream, with the file's size as [expected_size],
    writes exactly the file's bytes, returns the same digest and leaves any
    following bytes unread. *)
Theorem send_file_receive_file (data rest : list Z) :
  exists out,
    send_file data = Some (out, calculate_checksum data) /\
    calculate_checksum data = hexdigest (SHA256.digest data) /\
    receive_file (out ++ rest) (Z.of_nat (List.length data)) =
      RecvDone data (calculate_checksum data) rest.
Proof.
  destruct (file_chunks_spec data) as [Hc _].
  destruct (send_chunks_some _ (file_chunks_small data)) as [out [Ho Hl]].
  exists out. unfold send_file, calculate_checksum. rewrite Ho.
  split; [reflexivity|]. rewrite Hc. split; [reflexivity|].
  unfold receive_file.
  replace (S (List.length (out ++ rest)))
    with (List.length (file_chunks data) + S (List.length (out ++ rest) - List.length (file_chunks data)))%nat
    by (rewrite length_app in *; lia).
  rewrite (recv_chunks _ out rest _ 0 _ [] (file_chunks_small data) Ho) by (rewrite Hc; lia).
  rewrite Hc. cbn [recv_loop app]. rewrite Z.add_0_l, Z.ltb_irrefl. reflexivity.
Qed.







Lemma to_bytes_frame (m : Message) :
  json_wf (msg_payload m) = true ->
  Z.of_nat (List.length (dumps (header_json m))) <= MAX_HEADER ->
  exists b, to_bytes m = Some b /\ (4 <= List.length b)%nat /\
    forall rest, read_message (b ++ rest) = RMsg m rest.
Proof.
  intros Hwf Hlen.
  destruct (to_bytes m) as [b|] eqn:Hb.
  - exists b. split; [reflexivity|]. split.
    + exact (proj2 (read_message_to_bytes m b [] Hwf Hlen Hb)).
    + intros rest. exact (proj1 (read_message_to_bytes m b rest Hwf Hlen Hb)).
  - exfalso. unfold to_bytes in Hb. rewrite utf8_encode_ascii in Hb by apply dumps_ascii.
    unfold struct_pack_I in Hb. unfold MAX_HEADER in Hlen.
    rewrite (proj2 (Z.leb_le 0 _)), (proj2 (Z.ltb_lt _ (2 ^ 32))) in Hb by lia.
    discriminate.
Qed.

Lemma escape_char_length (c : Z) : (List.length (escape_char c) <= 12)%nat.
Proof.
  unfold escape_char.
  destruct (c =? 34); [cbn; lia|]. destruct (c =? 92); [cbn; lia|].
  destruct (c =? 8); [cbn; lia|]. destruct (c =? 12); [cbn; lia|].
  destruct (c =? 10); [cbn; lia|]. destruct (c =? 13); [cbn; lia|].
  destruct (c =? 9); [cbn; lia|].
  destruct ((c <? 32) || (126 <? c)); [|cbn; lia].
  destruct (c <? 0x10000); [cbn; lia|]. rewrite length_app. cbn. lia.
Qed.

Lemma escape_length (x : str) :
  (List.length (flat_map escape_char x) <= 12 * List.length x)%nat.
Proof.
  induction x as [|c x IH]; [cbn; lia|]. cbn [flat_map List.length].
  rewrite length_app. pose proof (escape_char_length c). lia.
Qed.

Lemma hello_header_length (t : MessageType) (a b : str) :
  (List.length (dumps (header_json (mkMessage t (JObj [(s "device_id", JStr a); (s "device_name", JStr b)]))))
   <= 100 + 12 * List.length a + 12 * List.length b)%nat.
Proof.
  pose proof (escape_length a). pose proof (escape_length b).
  assert (List.length (py_str_int (message_type_value t)) <= 2)%nat by (apply Nat.leb_le; destruct t; reflexivity).
  unfold header_json. simpl. repeat progress (rewrite ?length_app; simpl). lia.
Qed.

Lemma msg_type_eqb_refl (t : MessageType) : msg_type_eqb t t = true.
Proof. apply Z.eqb_refl. Qed.




Lemma serve_loop_S conf ldr (f : nat) name buf st :
  serve_loop conf ldr (S f) name buf st =
  match read_message buf with
  | RMsg m r =>
      match process_message conf ldr m name r st with
      | StepOk o r' st' =>
          let (o', st'') := serve_loop conf ldr f name r' st' in (o ++ o', st'')
      | StepRaised o st' => (o, st')
      end
  | _ => ([], st)
  end.
Proof. reflexivity. Qed.


Lemma handle_client_hello conf ldr (hello : Message) kv hb rest st ack :
  msg_type hello = HELLO -> msg_payload hello = JObj kv -> frame_ok hello ->
  to_bytes hello = Some hb ->
  to_bytes (hello_ack_message (sc_device_id conf) (sc_device_name conf)) = Some ack ->
  handle_client conf ldr (hb ++ rest) st =
  (ack ++ fst (serve_loop conf ldr (S (List.length rest))
                 (dict_get_default kv (s "device_name") (JStr (s "Unknown"))) rest st),
   snd (serve_loop conf ldr (S (List.length rest))
          (dict_get_default kv (s "device_name") (JStr (s "Unknown"))) rest st)).
Proof.
  intros Ht Hp [Hwf Hlen] Hhb Hack.
  destruct (to_bytes_frame hello Hwf Hlen) as [b [Hb [_ Hr]]].
  rewrite Hhb in Hb. injection Hb as <-.
  unfold handle_client. rewrite Hr, Ht, msg_type_eqb_refl, Hp. cbn [payload_get].
  rewrite Hack. destruct (serve_loop _ _ _ _ _ _); reflexivity.
Qed.



(** [ping_device] against a server running [_handle_client]: the HELLO
    it sends is answered with a HELLO_ACK, so the ping succeeds, and the
    server's state is unchanged. *)
Theorem ping_device_against_server conf ldr (st : Server) (device_id device_name : str) :
  frame_ok (hello_message device_id device_name) ->
  frame_ok (hello_ack_message (sc_device_id conf) (sc_device_name conf)) ->
  exists req, to_bytes (hello_message device_id device_name) = Some req /\
    ping_device device_id device_name true (fst (handle_client conf ldr req st)) = true /\
    snd (handle_client conf ldr req st) = st.
Proof.
  intros [Hwf Hlen] [Hwa Hla].
  destruct (to_bytes_frame _ Hwf Hlen) as [req [Hreq _]].
  destruct (to_bytes_frame _ Hwa Hla) as [ack [Hack [_ Hra]]].
  exists req. split; [exact Hreq|].
  rewrite <- (app_nil_r req).
  rewrite (handle_client_hello conf ldr (hello_message device_id device_name)
    [(s "device_id", JStr device_id); (s "device_name", JStr device_name)]
    req [] st ack eq_refl eq_refl (conj Hwf Hlen) Hreq Hack).
  rewrite serve_loop_S. cbn [fst snd]. rewrite !app_nil_r.
  split; [|reflexivity].
  unfold ping_device. rewrite Hreq. rewrite <- (app_nil_r ack), Hra. reflexivity.
Qed.


Lemma ping_retry_loop_success (max_retries : Z) (ping : Z -> bool) (l1 l2 : list Z) (k : Z) :
  (forall a, In a l1 -> ping a = false) -> ping k = true ->
  ping_retry_loop max_retries ping (l1 ++ k :: l2) =
  (Some true, ping_fail_trace max_retries l1 ++ [PingAttempt k]).
Proof.
  induction l1 as [|a l1 IH]; intros H Hk; [cbn; rewrite Hk; reflexivity|].
  cbn [ping_retry_loop app]. rewrite (H a (or_introl eq_refl)).
  rewrite IH by (auto; intros b Hb; apply H; right; exact Hb).
  unfold ping_fail_trace. cbn [map List.concat]. destruct (a <? max_retries - 1); reflexivity.
Qed.

Lemma in_range0 (n a : Z) : In a (range0 n) -> 0 <= a < n.
Proof.
  unfold range0. intros Ha. apply in_map_iff in Ha as [i [<- Hi]].
  apply in_seq in Hi. lia.
Qed.


(** When attempt [k] is the first to succeed, [ping_device_with_retry]
    makes exactly the attempts [0..k], sleeps after each failed attempt
    before it, and returns [True]. *)
Theorem ping_retry_first_success (max_retries : Z) (ping : Z -> bool) (k : Z) :
  0 <= k < max_retries -> ping k = true -> (forall a, 0 <= a < k -> ping a = false) ->
  ping_device_with_retry max_retries ping =
  (Some true, ping_fail_trace max_retries (range0 k) ++ [PingAttempt k]).
Proof.
  intros Hk Hp Hb. unfold ping_device_with_retry.
  assert (E : exists rest, range0 max_retries = range0 k ++ k :: rest).
  { unfold range0. exists (map Z.of_nat (seq (S (Z.to_nat k)) (Z.to_nat max_retries - S (Z.to_nat k)))).
    assert (Hn : Z.to_nat max_retries = (Z.to_nat k + S (Z.to_nat max_retries - S (Z.to_nat k)))%nat)
      by lia.
    rewrite Hn at 1. rewrite seq_app, map_app. cbn [seq map].
    rewrite Nat.add_0_l, Z2Nat.id by lia. reflexivity. }
  destruct E as [rest E]. rewrite E.
  apply ping_retry_loop_success; [|exact Hp].
  intros a Ha. apply Hb, in_range0, Ha.
Qed.

Lemma file_info_roundtrip (fi : FileInfo) : file_info_from_dict (file_info_to_dict fi) = Some fi.
Proof. destruct fi; reflexivity. Qed.



Lemma fixed_frame (m : Message) :
  json_wf (msg_payload m) = true -> (Z.of_nat (List.length (dumps (header_json m))) <=? MAX_HEADER) = true ->
  exists b, to_bytes m = Some b /\ forall rest, read_message (b ++ rest) = RMsg m rest.
Proof.
  intros Hw Hl. apply Z.leb_le in Hl. destruct (to_bytes_frame m Hw Hl) as [b [Hb [_ Hr]]].
  exists b. auto.
Qed.

Lemma serve_loop_nil conf ldr (n : nat) (name : json) (st : Server) :
  serve_loop conf ldr n name [] st = ([], st).
Proof. destruct n; reflexivity. Qed.

Lemma offer_payload_file (fi : FileInfo) :
  payload_item (msg_payload (offer_message fi)) (s "file") = Some (file_info_to_dict fi).
Proof. reflexivity. Qed.




(** A declined upload: with auto-accept off and the request hook absent
    or refusing, the server answers FILE_REJECT after its HELLO_ACK and
    leaves its files untouched; the client sends nothing after its offer and
    returns [False]. *)
Theorem upload_rejected conf ldr (st : Server) (cid cname file_path : str) (data : list Z) :
  let fi := local_file_info (path_of_str file_path) data in
  sc_auto_accept conf = false ->
  match sc_on_transfer_request conf with Some h => h (JStr cname) fi | None => false end = false ->
  frame_ok (hello_message cid cname) ->
  frame_ok (hello_ack_message (sc_device_id conf) (sc_device_name conf)) ->
  frame_ok (offer_message fi) ->
  exists hello ack c_out s_rest,
    to_bytes (hello_message cid cname) = Some hello /\
    to_bytes (hello_ack_message (sc_device_id conf) (sc_device_name conf)) = Some ack /\
    handle_client conf ldr (hello ++ c_out) st = (ack ++ s_rest, st) /\
    send_file_to_device_conn file_path data s_rest = (false, c_out).
Proof.
  intros fi Hauto Hhook [Hwh Hlh] [Hwa Hla] [Hwo Hlo].
  destruct (to_bytes_frame _ Hwh Hlh) as [hello [Hhello _]].
  destruct (to_bytes_frame _ Hwa Hla) as [ack [Hack _]].
  destruct (to_bytes_frame _ Hwo Hlo) as [offer [Hoffer [Ho4 Hroffer]]].
  destruct (fixed_frame reject_message eq_refl eq_refl) as [rej [Hrej Hrrej]].
  exists hello, ack, offer, rej.
  split; [exact Hhello|]. split; [exact Hack|]. split.
  - rewrite (handle_client_hello conf ldr (hello_message cid cname)
      [(s "device_id", JStr cid); (s "device_name", JStr cname)]
      hello offer st ack eq_refl eq_refl (conj Hwh Hlh) Hhello Hack).
    destruct offer as [|o0 offer']; [cbn in Ho4; lia|].
    rewrite serve_loop_S. pose proof (Hroffer []) as Hr. rewrite app_nil_r in Hr. rewrite Hr.
    unfold process_message. cbn [offer_message msg_type].
    unfold handle_file_offer. rewrite offer_payload_file. cbv beta iota.
    rewrite file_info_roundtrip, Hauto. cbn [orb].
    change (dict_get_default [(s "device_id", JStr cid); (s "device_name", JStr cname)]
              (s "device_name") (JStr (s "Unknown"))) with (JStr cname).
    fold fi. rewrite Hhook. cbn [negb]. unfold write_then. rewrite Hrej. cbn [prepend].
    rewrite !serve_loop_nil. cbn [fst snd]. rewrite ?app_nil_r. reflexivity.
  - unfold send_file_to_device_conn. fold fi. rewrite Hoffer.
    pose proof (Hrrej []) as Hr. rewrite app_nil_r in Hr. rewrite Hr. reflexivity.
Qed.




Lemma download_request_path (remote_path : str) :
  payload_get (msg_payload (download_request_message remote_path)) (s "path") (JStr []) =
  Some (JStr remote_path).
Proof. reflexivity. Qed.


(** Downloading a file the server does not have: the server answers
    ERROR "File not found" after its HELLO_ACK, and [download_from_device]
    returns [None] without touching the local files. *)
Theorem download_missing_file conf ldr (st : Server) (cid cname downloads_dir remote_path : str)
    (fs : files) :
  file_content (srv_fs st) (path_of_str remote_path) = None ->
  frame_ok (hello_message cid cname) ->
  frame_ok (hello_ack_message (sc_device_id conf) (sc_device_name conf)) ->
  frame_ok (download_request_message remote_path) ->
  exists hello ack req nf,
    to_bytes (hello_message cid cname) = Some hello /\
    to_bytes (hello_ack_message (sc_device_id conf) (sc_device_name conf)) = Some ack /\
    to_bytes (download_request_message remote_path) = Some req /\
    to_bytes not_found_message = Some nf /\
    handle_client conf ldr (hello ++ req) st = (ack ++ nf, st) /\
    download_from_device_conn downloads_dir remote_path nf fs = (None, fs).
Proof.
  intros Hf [Hwh Hlh] [Hwa Hla] [Hwr Hlr].
  destruct (to_bytes_frame _ Hwh Hlh) as [hello [Hhello _]].
  destruct (to_bytes_frame _ Hwa Hla) as [ack [Hack _]].
  destruct (to_bytes_frame _ Hwr Hlr) as [req [Hreq [Hr4 Hrreq]]].
  destruct (fixed_frame not_found_message eq_refl eq_refl) as [nf [Hnf Hrnf]].
  exists hello, ack, req, nf.
  do 4 (split; [assumption|]). split.
  - rewrite (handle_client_hello conf ldr (hello_message cid cname)
      [(s "device_id", JStr cid); (s "device_name", JStr cname)]
      hello req st ack eq_refl eq_refl (conj Hwh Hlh) Hhello Hack).
    destruct req as [|r0 req']; [cbn in Hr4; lia|].
    rewrite serve_loop_S. pose proof (Hrreq []) as Hr. rewrite app_nil_r in Hr. rewrite Hr.
    unfold process_message. cbn [download_request_message msg_type].
    unfold handle_download_request. rewrite download_request_path.
    rewrite Hf. unfold write_then. rewrite Hnf. cbn [prepend].
    rewrite !serve_loop_nil. cbn [fst snd]. rewrite ?app_nil_r. reflexivity.
  - unfold download_from_device_conn. rewrite Hreq.
    pose proof (Hrnf []) as Hr. rewrite app_nil_r in Hr. rewrite Hr. reflexivity.
Qed.


Lemma dict_get_not_in {V} (d : dict V) (k : str) :
  ~ In k (map fst d) -> dict_get d k = None.
Proof.
  induction d as [|[k' v'] d IH]; [reflexivity|]. cbn [map fst In dict_get].
  intros H. rewrite str_eqb_false by (intros ->; apply H; left; reflexivity).
  apply IH. intros H'. apply H. right. exact H'.
Qed.

Lemma load_devices_acc (ds acc : dict Device) :
  Forall (fun kv => fst kv = dev_id (snd kv)) ds -> NoDup (map fst (acc ++ ds)) ->
  fold_left (fun acc d => dict_set acc (dev_id d) d) (map snd ds) acc = acc ++ ds.
Proof.
  revert acc. induction ds as [|[k d] ds IH]; intros acc Hk Hn.
  - rewrite app_nil_r. reflexivity.
  - inversion Hk as [|? ? Hkd Hks]; subst. cbn [map snd fold_left]. cbn [fst snd] in Hkd.
    rewrite dict_set_absent.
    + rewrite <- Hkd. rewrite IH; [rewrite <- app_assoc; reflexivity | exact Hks |].
      rewrite <- app_assoc. exact Hn.
    + rewrite <- Hkd. apply dict_get_not_in. rewrite map_app in Hn. cbn [map fst] in Hn.
      apply NoDup_remove_2 in Hn. intros H. apply Hn, in_or_app. left. exact H.
Qed.

Lemma load_devices_keyed (ds : dict Device) :
  registry_keyed ds -> load_devices (map snd ds) = ds.
Proof. intros [Hk Hn]. unfold load_devices. apply (load_devices_acc ds []); assumption. Qed.

Lemma dict_set_keys {V} (d : dict V) (k : str) (v : V) :
  map fst (dict_set d k v) = if existsb (str_eqb k) (map fst d) then map fst d else map fst d ++ [k].
Proof.
  induction d as [|[k' v'] d IH]; [reflexivity|]. cbn [dict_set map fst existsb].
  destruct (str_eqb k k'); cbn [map fst orb]; [reflexivity|]. rewrite IH.
  destruct (existsb _ _); reflexivity.
Qed.

Lemma dict_set_keyed (ds : dict Device) (d : Device) :
  registry_keyed ds -> registry_keyed (dict_set ds (dev_id d) d).
Proof.
  intros [Hk Hn]. split.
  - induction ds as [|[k' v'] ds IH]; cbn [dict_set].
    + constructor; [reflexivity | constructor].
    + inversion Hk; subst. inversion Hn; subst.
      destruct (str_eqb (dev_id d) k') eqn:E.
      * apply str_eqb_true in E. constructor; [cbn [fst snd]; symmetry; exact E | assumption].
      * constructor; [assumption | apply IH; assumption].
  - rewrite dict_set_keys. destruct (existsb (str_eqb (dev_id d)) (map fst ds)) eqn:E; [exact Hn|].
    apply NoDup_app; [exact Hn | repeat constructor; intros [] |].
    intros x Hx [<-|[]]. assert (existsb (str_eqb (dev_id d)) (map fst ds) = true) as Hc.
    { apply existsb_exists. exists (dev_id d). split; [exact Hx | apply str_eqb_refl]. }
    congruence.
Qed.

Lemma filter_keyed (ds : dict Device) (p : str * Device -> bool) :
  registry_keyed ds -> registry_keyed (filter p ds).
Proof.
  intros [Hk Hn]. split.
  - apply Forall_forall. intros x Hx. apply filter_In in Hx.
    exact (proj1 (Forall_forall _ _) Hk x (proj1 Hx)).
  - induction ds as [|e ds IH]; [constructor|]. cbn [filter].
    inversion Hk; subst. cbn [map] in Hn. inversion Hn; subst.
    destruct (p e); cbn [map]; [|apply IH; assumption].
    constructor; [|apply IH; assumption].
    intros H. apply in_map_iff in H. destruct H as [x [Hx Hin]].
    apply filter_In in Hin. apply H3. rewrite <- Hx. apply in_map, Hin.
Qed.

Lemma sync_update (d : Device) (st : Disc) :
  devices_in_sync st -> devices_in_sync (update_device d st).
Proof.
  intros [Hk _]. unfold update_device, with_devices. cbn [cfg_devices devices_file].
  pose proof (dict_set_keyed _ d Hk) as H. split; [exact H | apply load_devices_keyed, H].
Qed.

Lemma sync_remove (id : str) (st : Disc) :
  devices_in_sync st -> devices_in_sync (remove_device id st).
Proof.
  intros Hs. unfold remove_device. destruct (dict_get (cfg_devices st) id); [|exact Hs].
  destruct Hs as [Hk _]. unfold with_devices. cbn [cfg_devices devices_file].
  pose proof (filter_keyed _ (fun kv => negb (str_eqb id (fst kv))) Hk) as H.
  split; [exact H | apply load_devices_keyed, H].
Qed.

Lemma sync_with_seen st x : devices_in_sync st -> devices_in_sync (with_seen st x).
Proof. exact (fun H => H). Qed.
Lemma sync_with_counters st a b c : devices_in_sync st -> devices_in_sync (with_counters st a b c).
Proof. exact (fun H => H). Qed.
Lemma sync_emit st e : devices_in_sync st -> devices_in_sync (emit st e).
Proof. exact (fun H => H). Qed.
Lemma sync_emit_status id b st : devices_in_sync st -> devices_in_sync (emit_status id b st).
Proof. unfold emit_status. destruct (hook_status st); auto using sync_emit. Qed.
Lemma sync_schedule id st : devices_in_sync st -> devices_in_sync (schedule_reconnect id st).
Proof. unfold schedule_reconnect. destruct (_ || _); auto using sync_emit, sync_with_counters. Qed.

Create HintDb sync.
#[local] Hint Resolve sync_update sync_remove sync_with_seen sync_with_counters sync_emit
  sync_emit_status sync_schedule : sync.

Ltac sync_cases :=
  repeat (cbv zeta; match goal with
          | |- context [match ?x with _ => _ end] => destruct x
          end); auto with sync.

Lemma sync_step (st : Disc) (op : DiscOp) :
  devices_in_sync st -> devices_in_sync (disc_step st op).
Proof.
  intros H. destruct op as [i now|i now| |b now id|d|id]; cbn [disc_step].
  - unfold add_service. sync_cases.
  - unfold update_service, add_service. sync_cases.
  - unfold seed_seen_ids. auto with sync.
  - unfold check_device_with_retry. sync_cases.
  - auto with sync.
  - auto with sync.
Qed.

(** Every operation on the discovery state keeps devices.json in sync
    with the registry. *)
Lemma devices_file_in_sync (st : Disc) (ops : list DiscOp) :
  devices_in_sync st -> devices_in_sync (run_disc st ops).
Proof.
  unfold run_disc. revert st. induction ops as [|op ops IH]; intros st H; [exact H|].
  cbn [fold_left]. apply IH, sync_step, H.
Qed.

Lemma load_devices_fold_keyed (file : list Device) (acc : dict Device) :
  registry_keyed acc ->
  registry_keyed (fold_left (fun acc d => dict_set acc (dev_id d) d) file acc).
Proof.
  revert acc. induction file as [|d file IH]; intros acc H; [exact H|].
  cbn [fold_left]. apply IH, dict_set_keyed, H.
Qed.

(** The device registry loaded by [ConfigManager._load_devices] at start
    keeps every device under its own id, once, and after any sequence of
    discovery callbacks, health-check rounds, enrolments and removals,
    reloading devices.json gives back exactly the registry held in memory. *)
Theorem devices_reload_after_start (file : list Device) (own : str) (loop hs hn hf : bool)
    (ops : list DiscOp) :
  let st := run_disc (disc_init (load_devices file) own loop hs hn hf) ops in
  registry_keyed (cfg_devices st) /\ load_devices (devices_file st) = cfg_devices st.
Proof.
  apply devices_file_in_sync.
  assert (H : registry_keyed (load_devices file))
    by (apply load_devices_fold_keyed; split; constructor).
  split; [exact H|]. cbn [disc_init devices_file cfg_devices]. apply load_devices_keyed, H.
Qed.

Lemma set_mem_discard (x : str) (l : list str) : set_mem x (set_discard x l) = false.
Proof.
  unfold set_mem, set_discard. induction l as [|y l IH]; [reflexivity|].
  cbn [filter]. destruct (str_eqb x y) eqn:E; cbn [negb]; [exact IH|].
  cbn [existsb]. rewrite E. exact IH.
Qed.

Lemma dict_get_filter_key {V} (d : dict V) (id k : str) :
  dict_get (filter (fun kv => negb (str_eqb id (fst kv))) d) k =
  if str_eqb k id then None else dict_get d k.
Proof.
  induction d as [|[k' v'] d IH]; cbn [filter dict_get fst].
  - destruct (str_eqb k id); reflexivity.
  - destruct (str_eqb id k') eqn:E; cbn [negb dict_get].
    + apply str_eqb_true in E. subst k'. rewrite IH.
      destruct (str_eqb k id); reflexivity.
    + rewrite IH. destruct (str_eqb k id) eqn:E2; [|reflexivity].
      apply str_eqb_true in E2. subst k. rewrite E. reflexivity.
Qed.

Lemma dict_get_keyed (ds : dict Device) (k : str) (v : Device) :
  Forall (fun kv => fst kv = dev_id (snd kv)) ds -> dict_get ds k = Some v -> dev_id v = k.
Proof.
  induction ds as [|[k' v'] ds IH]; [discriminate|]. intros Hk.
  inversion Hk as [|? ? Hkd Hks]; subst. cbn [dict_get].
  destruct (str_eqb k k') eqn:E; [|exact (IH Hks)].
  intros Hv. injection Hv as <-. apply str_eqb_true in E. subst k. symmetry. exact Hkd.
Qed.

(** [force_reconnect] on an unknown id returns [False] and changes
    nothing. On an enrolled device it returns the ping result, resets the
    device's failure and reconnect counters to 0, drops it from the pending
    reconnects, and marks it online with a new [last_seen] when the ping
    succeeds; a failed ping never marks it offline. *)
Theorem force_reconnect_spec (online : bool) (now device_id : str) (st : Disc) :
  (dict_get (cfg_devices st) device_id = None -> force_reconnect online now device_id st = (false, st)) /\
  (forall device, registry_keyed (cfg_devices st) ->
     dict_get (cfg_devices st) device_id = Some device ->
     fst (force_reconnect online now device_id st) = online /\
     dict_get (consecutive_failures (snd (force_reconnect online now device_id st))) device_id = Some 0 /\
     dict_get (reconnect_attempts (snd (force_reconnect online now device_id st))) device_id = Some 0 /\
     set_mem device_id (pending_reconnects (snd (force_reconnect online now device_id st))) = false /\
     dict_get (cfg_devices (snd (force_reconnect online now device_id st))) device_id =
       Some (if online then set_last_seen (set_online device true) now else device)).
Proof.
  unfold force_reconnect. split; [intros H; rewrite H; reflexivity|].
  intros device [Hk _] H. rewrite H. pose proof (dict_get_keyed _ _ _ Hk H) as Hid.
  destruct online.
  - unfold emit_status, emit, update_device, with_devices, with_counters.
    cbn [fst snd hook_status cfg_devices consecutive_failures reconnect_attempts pending_reconnects].
    destruct (hook_status st);
      cbn [fst snd cfg_devices consecutive_failures reconnect_attempts pending_reconnects];
      cbn [set_last_seen set_online dev_id]; rewrite Hid;
      rewrite !dict_get_set_same, set_mem_discard; repeat split; reflexivity.
  - unfold with_counters.
    cbn [fst snd cfg_devices consecutive_failures reconnect_attempts pending_reconnects].
    rewrite !dict_get_set_same, set_mem_discard, H. repeat split; reflexivity.
Qed.

(** The registry lookups of [ConfigManager]: after [update_device] the
    id maps to the new device and other ids are unchanged; after
    [remove_device] the id is absent and other ids are unchanged; removing
    an unknown id changes nothing (devices.json is not rewritten); updating
    an enrolled device keeps the order of [list_devices]. *)
Theorem device_registry_lookup (st : Disc) (d : Device) (device_id k : str) :
  dict_get (cfg_devices (update_device d st)) k =
    (if str_eqb k (dev_id d) then Some d else dict_get (cfg_devices st) k) /\
  dict_get (cfg_devices (remove_device device_id st)) k =
    (if str_eqb k device_id then None else dict_get (cfg_devices st) k) /\
  (dict_get (cfg_devices st) device_id = None -> remove_device device_id st = st) /\
  (dict_get (cfg_devices st) (dev_id d) <> None ->
     map fst (cfg_devices (update_device d st)) = map fst (cfg_devices st)).
Proof.
  split; [|split; [|split]].
  - unfold update_device, with_devices. cbn [cfg_devices].
    destruct (str_eqb k (dev_id d)) eqn:E.
    + apply str_eqb_true in E. subst k. apply dict_get_set_same.
    + apply dict_get_set_other. intros ->. rewrite str_eqb_refl in E. discriminate.
  - unfold remove_device. destruct (dict_get (cfg_devices st) device_id) eqn:E.
    + unfold with_devices. cbn [cfg_devices]. apply dict_get_filter_key.
    + destruct (str_eqb k device_id) eqn:E2; [|reflexivity].
      apply str_eqb_true in E2. subst k. exact E.
  - intros H. unfold remove_device. rewrite H. reflexivity.
  - intros H. unfold update_device, with_devices. cbn [cfg_devices].
    rewrite dict_set_keys. destruct (existsb _ _) eqn:E; [reflexivity|].
    exfalso. apply H. apply dict_get_not_in. intros Hin.
    assert (existsb (str_eqb (dev_id d)) (map fst (cfg_devices st)) = true) as Hc
      by (apply existsb_exists; exists (dev_id d); split; [exact Hin | apply str_eqb_refl]).
    congruence.
Qed.


Ltac frame_ok_tac := split; [vm_compute; reflexivity | apply Z.leb_le; vm_compute; reflexivity].




Lemma ping_device_against_server_witness :
  exists req, to_bytes (hello_message (s "a") (s "b")) = Some req /\
    ping_device (s "a") (s "b") true (fst (handle_client (sample_conf true) no_listing req empty_server)) = true /\
    snd (handle_client (sample_conf true) no_listing req empty_server) = empty_server.
Proof. apply ping_device_against_server; frame_ok_tac. Defined.


Lemma ping_retry_first_success_witness :
  ping_device_with_retry 3 (fun a => a =? 1) = (Some true, ping_fail_trace 3 (range0 1) ++ [PingAttempt 1]).
Proof.
  apply ping_retry_first_success; [lia | reflexivity |].
  intros a Ha. apply Z.eqb_neq. lia.
Defined.


Lemma upload_rejected_witness :
  exists hello ack c_out s_rest,
    to_bytes (hello_message (s "a") (s "b")) = Some hello /\
    to_bytes (hello_ack_message (s "srv-id") (s "server")) = Some ack /\
    handle_client (sample_conf false) no_listing (hello ++ c_out) empty_server = (ack ++ s_rest, empty_server) /\
    send_file_to_device_conn (s "/home/a.txt") [1; 2; 3] s_rest = (false, c_out).
Proof.
  apply (upload_rejected (sample_conf false) no_listing empty_server (s "a") (s "b") (s "/home/a.txt") [1; 2; 3]);
    [reflexivity | reflexivity | frame_ok_tac ..].
Defined.



Lemma download_missing_file_witness :
  exists hello ack req nf,
    to_bytes (hello_message (s "a") (s "b")) = Some hello /\
    to_bytes (hello_ack_message (s "srv-id") (s "server")) = Some ack /\
    to_bytes (download_request_message (s "/srv/a.txt")) = Some req /\
    to_bytes not_found_message = Some nf /\
    handle_client (sample_conf true) no_listing (hello ++ req) empty_server = (ack ++ nf, empty_server) /\
    download_from_device_conn (s "/dl") (s "/srv/a.txt") nf [] = (None, []).
Proof.
  apply (download_missing_file (sample_conf true) no_listing empty_server (s "a") (s "b") (s "/dl") (s "/srv/a.txt") []);
    [reflexivity | frame_ok_tac ..].
Defined.

